(** * Voice Email Assistant: the conversation engine of [ui/app.py]

    A shallow embedding of the turn handling of [VoiceEmailApp]
    ([process_voice_command] and the handlers it dispatches to), of
    [EmailAssistant.analyze_command] and of [EmailSender], with the
    properties of the conversation state proved over it.

    Conventions of the model.
    - A Python [str] is a Rocq [string]; each [ascii] stands for the code
      point of the same number, so the model covers text whose code points
      are below 256.  [lower], [strip], [split] and the [in] test are
      written out for that range.
    - The application object is the record [app]; a method is a
      computation in the monad [M], which threads the record and carries a
      raised exception to the enclosing [try_except].
    - What the user sees or hears (log lines, status line, speech, message
      boxes) is appended to the [trace] of the record.
    - The language service, the confirmation dialog and the mail transport
      are answered by a [world], one per turn. *)

From Stdlib Require Import Ascii String ZArith Lia.
From stdpp Require Import base option list strings gmap.

(** ** Python string operations *)

Module Py.

Definition dq : string := String (ascii_of_nat 34) "".
Definition nl : string := String (ascii_of_nat 10) "".

Definition code (c : ascii) : nat := nat_of_ascii c.

Definition between (lo hi n : nat) : bool := (lo <=? n)%nat && (n <=? hi)%nat.

(** [str.isspace] on the code points below 256. *)
Definition isspace (c : ascii) : bool :=
  let n := code c in
  between 9 13 n || between 28 32 n || (n =? 133)%nat || (n =? 160)%nat.

(** [str.lower] on one code point below 256: A-Z, and the accented
    capitals 192..222 except the multiplication sign 215. *)
Definition lower_char (c : ascii) : ascii :=
  let n := code c in
  if between 65 90 n || (between 192 222 n && negb (n =? 215)%nat)
  then ascii_of_nat (n + 32) else c.

Fixpoint lower (s : string) : string :=
  match s with
  | EmptyString => EmptyString
  | String c s' => String (lower_char c) (lower s')
  end.

Fixpoint lstrip (s : string) : string :=
  match s with
  | EmptyString => EmptyString
  | String c s' => if isspace c then lstrip s' else s
  end.

Fixpoint rstrip (s : string) : string :=
  match s with
  | EmptyString => EmptyString
  | String c s' =>
      match rstrip s' with
      | EmptyString => if isspace c then EmptyString else String c EmptyString
      | r => String c r
      end
  end.

Definition strip (s : string) : string := rstrip (lstrip s).

Definition eqb (a b : string) : bool := bool_decide (a = b).

(** [not s] for a string. *)
Definition is_empty (s : string) : bool :=
  match s with EmptyString => true | _ => false end.

Fixpoint startswith (p s : string) : bool :=
  match p, s with
  | EmptyString, _ => true
  | String a p', String b s' => bool_decide (a = b) && startswith p' s'
  | String _ _, EmptyString => false
  end.

(** [sub in s] *)
Fixpoint contains (sub s : string) : bool :=
  startswith sub s ||
  match s with
  | EmptyString => false
  | String _ s' => contains sub s'
  end.

Fixpoint rev_onto (s acc : string) : string :=
  match s with
  | EmptyString => acc
  | String c s' => rev_onto s' (String c acc)
  end.

(** [s.split(sep)] for a non-empty [sep]: the leftmost occurrences,
    not overlapping.  [skip] counts the characters of a separator still
    to pass over, [cur] holds the piece being read, reversed. *)
Fixpoint split_from (sep : string) (skip : nat) (cur s : string) : list string :=
  match s with
  | EmptyString => [rev_onto cur EmptyString]
  | String c s' =>
      match skip with
      | S k => split_from sep k cur s'
      | O =>
          if startswith sep s
          then rev_onto cur EmptyString
                 :: split_from sep (String.length sep - 1) EmptyString s'
          else split_from sep 0 (String c cur) s'
      end
  end.

Definition split (sep s : string) : list string := split_from sep 0 EmptyString s.

(** [sep.join(parts)] *)
Fixpoint join (sep : string) (parts : list string) : string :=
  match parts with
  | [] => EmptyString
  | [p] => p
  | p :: rest => p +:+ sep +:+ join sep rest
  end.

(** [s[:n]] *)
Fixpoint take (n : nat) (s : string) : string :=
  match n, s with
  | S n', String c s' => String c (take n' s')
  | _, _ => EmptyString
  end.

End Py.

(** ** Regular expressions, for [EmailSender.is_valid_email]

    The pattern of [is_valid_email] uses character classes, [+], [{2,}]
    and concatenation.  They are matched here by derivatives. *)

Module Re.

Inductive re : Type :=
| Nothing
| Eps
| Cls (p : ascii -> bool)
| Cat (r1 r2 : re)
| Alt (r1 r2 : re)
| Star (r : re).

Fixpoint nullable (r : re) : bool :=
  match r with
  | Nothing => false
  | Eps => true
  | Cls _ => false
  | Cat r1 r2 => nullable r1 && nullable r2
  | Alt r1 r2 => nullable r1 || nullable r2
  | Star _ => true
  end.

Fixpoint deriv (c : ascii) (r : re) : re :=
  match r with
  | Nothing => Nothing
  | Eps => Nothing
  | Cls p => if p c then Eps else Nothing
  | Cat r1 r2 =>
      if nullable r1
      then Alt (Cat (deriv c r1) r2) (deriv c r2)
      else Cat (deriv c r1) r2
  | Alt r1 r2 => Alt (deriv c r1) (deriv c r2)
  | Star r' => Cat (deriv c r') (Star r')
  end.

Fixpoint fullmatch (r : re) (s : string) : bool :=
  match s with
  | EmptyString => nullable r
  | String c s' => fullmatch (deriv c r) s'
  end.

Definition plus (r : re) : re := Cat r (Star r).
Definition chr (a : ascii) : re := Cls (fun c => bool_decide (c = a)).

(** The string without its last character when that is a newline. *)
Fixpoint chop_newline (s : string) : option string :=
  match s with
  | EmptyString => None
  | String c EmptyString => if bool_decide (c = ascii_of_nat 10) then Some EmptyString else None
  | String c s' => String c <$> chop_newline s'
  end.

(** [re.match('^' r '$', s)]: [$] is the end of the string, or the place
    before a newline that ends the string. *)
Definition match_to_end (r : re) (s : string) : bool :=
  fullmatch r s ||
  match chop_newline s with
  | Some s' => fullmatch r s'
  | None => false
  end.

End Re.

(** ** Values and exceptions *)

Inductive exn : Type :=
| KeyError (key : string)         (* d[key] on a missing key *)
| TypeError                       (* str + None *)
| AttributeError                  (* .get on a value that is not a dict *)
| TclError                        (* Text.insert with None for the characters *)
| JSONDecodeError
| ServiceError (msg : string).    (* whatever the service client raises *)

Inductive result (A : Type) : Type :=
| Ok (a : A)
| Raised (e : exn).
Arguments Ok {A} a.
Arguments Raised {A} e.

(** [try: r except Exception as e: h e] on a computation without state. *)
Definition try_catch {A} (r : result A) (h : exn -> result A) : result A :=
  match r with
  | Ok a => Ok a
  | Raised e => h e
  end.

(** The value a JSON object holds under a key: no such key, [null], or a
    value.  The model keeps the six keys the prompt of [analyze_command]
    asks for, each with the type the prompt gives it. *)
Inductive field (A : Type) : Type :=
| Absent
| Null
| Val (a : A).
Arguments Absent {A}.
Arguments Null {A}.
Arguments Val {A} a.

(** [d.get(key)]: [None] for a missing key and for [null]. *)
Definition dict_get {A} (f : field A) : option A :=
  match f with
  | Val a => Some a
  | _ => None
  end.

(** [d.get(key, default)]: the default only for a missing key. *)
Definition dict_get_default {A} (f : field A) (default : A) : option A :=
  match f with
  | Absent => Some default
  | Null => None
  | Val a => Some a
  end.

(** [d[key]] *)
Definition dict_item {A} (key : string) (f : field A) : result (option A) :=
  match f with
  | Absent => Raised (KeyError key)
  | Null => Ok None
  | Val a => Ok (Some a)
  end.

Definition is_present {A} (f : field A) : bool :=
  match f with
  | Absent => false
  | _ => true
  end.

(** Truth value of an optional string: [None] and [""] are false. *)
Definition truthy (v : option string) : bool :=
  match v with
  | Some s => negb (Py.is_empty s)
  | None => false
  end.

(** [str(v)] inside an f-string. *)
Definition fmt (v : option string) : string :=
  match v with
  | Some s => s
  | None => "None"
  end.

Module Analysis.
Record t : Type := Build {
  intent : field string;
  recipient : field string;
  subject : field string;
  body : field string;
  continue_previous : field bool;
  explanation : field string
}.

(** [bool(analysis)]: a dict is true when it has a key. *)
Definition nonempty (a : t) : bool :=
  is_present (intent a) || is_present (recipient a) || is_present (subject a)
  || is_present (body a) || is_present (continue_previous a)
  || is_present (explanation a).
End Analysis.

(** What [json.loads] can hand back, as far as the application looks at
    it: [None], a scalar, or an object with the keys above. *)
Inductive json : Type :=
| JNull
| JBool (b : bool)
| JInt (z : Z)
| JStr (s : string)
| JDict (a : Analysis.t).

Definition json_truthy (v : json) : bool :=
  match v with
  | JNull => false
  | JBool b => b
  | JInt z => negb (z =? 0)%Z
  | JStr s => negb (Py.is_empty s)
  | JDict a => Analysis.nonempty a
  end.

(** ** The application state *)

Module Ctx.
(** [self.current_context] *)
Record t : Type := Build {
  recipient : option string;
  subject : option string;
  partial_body : option string;
  in_conversation : bool;
  last_intent : option string
}.

Definition default : t :=
  {| recipient := None; subject := None; partial_body := None;
     in_conversation := false; last_intent := None |}.

Definition set_recipient (v : option string) (c : t) : t :=
  {| recipient := v; subject := subject c; partial_body := partial_body c;
     in_conversation := in_conversation c; last_intent := last_intent c |}.
Definition set_subject (v : option string) (c : t) : t :=
  {| recipient := recipient c; subject := v; partial_body := partial_body c;
     in_conversation := in_conversation c; last_intent := last_intent c |}.
Definition set_partial_body (v : option string) (c : t) : t :=
  {| recipient := recipient c; subject := subject c; partial_body := v;
     in_conversation := in_conversation c; last_intent := last_intent c |}.
Definition set_in_conversation (v : bool) (c : t) : t :=
  {| recipient := recipient c; subject := subject c; partial_body := partial_body c;
     in_conversation := v; last_intent := last_intent c |}.
Definition set_last_intent (v : option string) (c : t) : t :=
  {| recipient := recipient c; subject := subject c; partial_body := partial_body c;
     in_conversation := in_conversation c; last_intent := v |}.
End Ctx.

(** What the application shows, says or asks. *)
Inductive event : Type :=
| Log (message : string)                  (* self.log *)
| LogException (e : exn)                  (* self.log("Error processing command: " + str(e)) *)
| Status (text : string)                  (* self.status_text.set *)
| Speak (text : string)                   (* self.tts_manager.speak *)
| ShowError (title message : string)      (* messagebox.showerror *)
| ShowInfo (title message : string)       (* messagebox.showinfo *)
| AskYesNo (title message : string)       (* messagebox.askyesno *)
| AddContactDialog.                       (* the dialog of _show_add_contact_dialog *)

Record app : Type := App {
  current_context : Ctx.t;
  recipient_var : string;                 (* the recipient entry *)
  subject_var : string;                   (* the subject entry *)
  message_text : string;                  (* the text of the message widget *)
  contacts : gmap string string;
  trace : list event                      (* oldest first *)
}.

(** The state [__init__] leaves, with the contacts read from disk. *)
Definition _init_application_state (known : gmap string string) : app :=
  {| current_context := Ctx.default; recipient_var := ""; subject_var := "";
     message_text := ""; contacts := known; trace := [] |}.

(** The answers of the outside during one turn. *)
Inductive smtp_result : Type :=
| SmtpSent
| SmtpAuthenticationError
| SmtpException (text : string).          (* str(e) of any other exception *)

Record world : Type := World {
  llm_create : result string;             (* the content of the completion, or what the call raised *)
  json_loads : string -> result json;
  askyesno : bool;                        (* the answer to the confirmation box *)
  smtp : smtp_result
}.

(** ** Methods as computations over the application record *)

Definition M (A : Type) : Type := app -> result A * app.

Definition ret {A} (a : A) : M A := fun st => (Ok a, st).

Definition bind {A B} (m : M A) (k : A -> M B) : M B :=
  fun st =>
    match m st with
    | (Ok a, st') => k a st'
    | (Raised e, st') => (Raised e, st')
    end.

Definition raise {A} (e : exn) : M A := fun st => (Raised e, st).

(** [try: m except Exception as e: h e]; what [m] did to the record
    before it raised stays done. *)
Definition try_except {A} (m : M A) (h : exn -> M A) : M A :=
  fun st =>
    match m st with
    | (Ok a, st') => (Ok a, st')
    | (Raised e, st') => h e st'
    end.

Definition lift {A} (r : result A) : M A := fun st => (r, st).
Definition get_app : M app := fun st => (Ok st, st).
Definition modify (f : app -> app) : M unit := fun st => (Ok tt, f st).

Definition run {A} (m : M A) (st : app) : app := snd (m st).

Notation "'let*' x := m 'in' k" := (bind m (fun x => k))
  (at level 10, x name, m at level 100, k at level 200).
Notation "m ;;; k" := (bind m (fun _ => k))
  (at level 100, k at level 200, right associativity).

Definition with_context (f : Ctx.t -> Ctx.t) (st : app) : app :=
  {| current_context := f (current_context st); recipient_var := recipient_var st;
     subject_var := subject_var st; message_text := message_text st;
     contacts := contacts st; trace := trace st |}.
Definition with_recipient_var (v : string) (st : app) : app :=
  {| current_context := current_context st; recipient_var := v;
     subject_var := subject_var st; message_text := message_text st;
     contacts := contacts st; trace := trace st |}.
Definition with_subject_var (v : string) (st : app) : app :=
  {| current_context := current_context st; recipient_var := recipient_var st;
     subject_var := v; message_text := message_text st;
     contacts := contacts st; trace := trace st |}.
Definition with_message_text (v : string) (st : app) : app :=
  {| current_context := current_context st; recipient_var := recipient_var st;
     subject_var := subject_var st; message_text := v;
     contacts := contacts st; trace := trace st |}.
Definition with_contacts (v : gmap string string) (st : app) : app :=
  {| current_context := current_context st; recipient_var := recipient_var st;
     subject_var := subject_var st; message_text := message_text st;
     contacts := v; trace := trace st |}.
Definition with_event (ev : event) (st : app) : app :=
  {| current_context := current_context st; recipient_var := recipient_var st;
     subject_var := subject_var st; message_text := message_text st;
     contacts := contacts st; trace := trace st ++ [ev] |}.

Definition emit (ev : event) : M unit := modify (with_event ev).
Definition log (message : string) : M unit := emit (Log message).
Definition set_status (text : string) : M unit := emit (Status text).
Definition speak (text : string) : M unit := emit (Speak text).
Definition set_context (f : Ctx.t -> Ctx.t) : M unit := modify (with_context f).

(** The message widget.  [get(1.0, END)] is the text followed by the
    newline Tk keeps at the end; [delete(1.0, END)] empties it;
    [insert(END, chars)] appends, and raises when [chars] is [None]. *)
Definition text_get (st : app) : string := message_text st +:+ Py.nl.
Definition text_delete : M unit := modify (with_message_text "").
Definition text_insert (chars : option string) : M unit :=
  match chars with
  | Some s => modify (fun st => with_message_text (message_text st +:+ s) st)
  | None => raise TclError
  end.

(** ** core/email_sender.py *)

Definition is_alpha (c : ascii) : bool :=
  let n := Py.code c in Py.between 97 122 n || Py.between 65 90 n.
Definition is_digit (c : ascii) : bool := Py.between 48 57 (Py.code c).
Definition one_of (chars : string) (c : ascii) : bool :=
  Py.contains (String c "") chars.

(** [^[a-zA-Z0-9._%+-]+@[a-zA-Z0-9.-]+\.[a-zA-Z]{2,}$] *)
Definition email_pattern : Re.re :=
  Re.Cat (Re.plus (Re.Cls (fun c => is_alpha c || is_digit c || one_of "._%+-" c)))
 (Re.Cat (Re.chr "@")
 (Re.Cat (Re.plus (Re.Cls (fun c => is_alpha c || is_digit c || one_of ".-" c)))
 (Re.Cat (Re.chr ".")
 (Re.Cat (Re.Cls is_alpha) (Re.Cat (Re.Cls is_alpha) (Re.Star (Re.Cls is_alpha))))))).

Definition is_valid_email (email : string) : bool :=
  Re.match_to_end email_pattern email.

(** [send_email]: the message is built, then the transport is tried
    inside [try]; the answer is the pair [(success, message)].  What the
    transport does with the message is the world's [smtp]. *)
Definition send_email (w : world) (to_email subject body : string) : bool * string :=
  match smtp w with
  | SmtpSent => (true, "Email sent successfully!")
  | SmtpAuthenticationError => (false, "Gmail login failed. Check your app password.")
  | SmtpException text => (false, "Sending failed: " +:+ text)
  end.

(** ** core/openai_assistant.py *)

(** The prompt is built from the command and the context and sent to
    the service; what comes back is the world's [llm_create].  The inner
    [try] turns a [JSONDecodeError] of [json.loads] into [None]; the
    outer one turns every exception into [None]. *)
Definition analyze_command (w : world) (command conversation_context : string)
  : result json :=
  try_catch
    (match llm_create w with
     | Raised e => Raised e
     | Ok text =>
         let content := Py.strip text in
         try_catch (json_loads w content)
           (fun e => match e with
                     | JSONDecodeError => Ok JNull
                     | _ => Raised e
                     end)
     end)
    (fun _ => Ok JNull).


(** ** ui/app.py *)

Definition _reset_conversation_context : M unit :=
  set_context (fun _ => Ctx.default).

Definition _clear_form : M unit :=
  modify (with_recipient_var "") ;;;
  modify (with_subject_var "") ;;;
  text_delete ;;;
  log "Form cleared".

(** The parts of the draft that are set, in the order the method appends
    them. *)
Definition context_parts (c : Ctx.t) : list string :=
  (if truthy (Ctx.recipient c) then ["Recipient: " +:+ fmt (Ctx.recipient c)] else [])
  ++ (if truthy (Ctx.subject c) then ["Subject: " +:+ fmt (Ctx.subject c)] else [])
  ++ (if truthy (Ctx.partial_body c)
      then ["Previous message content: " +:+ fmt (Ctx.partial_body c)] else []).

Definition _build_conversation_context (c : Ctx.t) : string :=
  if negb (Ctx.in_conversation c) then ""
  else
    match context_parts c with
    | [] => ""
    | parts => "Current email draft: " +:+ Py.join "; " parts +:+ ". "
    end.

Definition _provide_next_step_guidance : M unit :=
  let* st := get_app in
  let missing :=
    (if Py.is_empty (recipient_var st) then ["recipient"] else [])
    ++ (if Py.is_empty (subject_var st) then ["subject"] else [])
    ++ (if Py.is_empty (Py.strip (text_get st)) then ["message body"] else []) in
  match missing with
  | [] =>
      set_status "Your email is ready to send. Say 'send it' when ready." ;;;
      speak "Your email is ready. Say send it when ready."
  | _ =>
      let guidance := "I need your " +:+ Py.join ", " missing in
      set_status guidance ;;;
      speak guidance
  end.

(** [if analysis.get(key): ... analysis[key] ...]: the body runs on the
    value when it is a non-empty string. *)
Definition when_set (f : field string) (k : string -> M unit) : M unit :=
  if truthy (dict_get f)
  then match f with
       | Val v => k v
       | _ => ret tt
       end
  else ret tt.

Definition _handle_compose_intent (analysis : Analysis.t) : M unit :=
  when_set (Analysis.recipient analysis) (fun r =>
    set_context (Ctx.set_recipient (Some r)) ;;;
    let* st := get_app in
    let recipient_email := default r (contacts st !! Py.lower r) in
    modify (with_recipient_var recipient_email) ;;;
    log ("Setting recipient: " +:+ recipient_email)) ;;;
  when_set (Analysis.subject analysis) (fun s =>
    set_context (Ctx.set_subject (Some s)) ;;;
    modify (with_subject_var s) ;;;
    log ("Setting subject: " +:+ s)) ;;;
  when_set (Analysis.body analysis) (fun b =>
    set_context (Ctx.set_partial_body (Some b)) ;;;
    text_delete ;;;
    text_insert (Some b) ;;;
    log "Setting message body") ;;;
  _provide_next_step_guidance.

Definition _handle_continue_body_intent (analysis : Analysis.t) : M unit :=
  let* st := get_app in
  let current_text := Py.strip (text_get st) in
  (if bool_decide (dict_get_default (Analysis.continue_previous analysis) false = Some true)
      && negb (Py.is_empty current_text)
   then
     match dict_get_default (Analysis.body analysis) "" with
     | None => raise TypeError
     | Some b =>
         let new_text := current_text +:+ " " +:+ b in
         text_delete ;;;
         text_insert (Some new_text) ;;;
         set_context (Ctx.set_partial_body (Some new_text)) ;;;
         log "Appended to message body"
     end
   else
     text_delete ;;;
     text_insert (dict_get_default (Analysis.body analysis) "") ;;;
     set_context (Ctx.set_partial_body (dict_get_default (Analysis.body analysis) "")) ;;;
     log "Updated message body") ;;;
  set_status "Message updated" ;;;
  speak "Message updated".

Definition _validate_email_form (recipient body : string) : M bool :=
  if Py.is_empty recipient then
    emit (ShowError "Error" "Recipient is required") ;;; ret false
  else
    let* ok :=
      (if negb (is_valid_email recipient) then
         let* st := get_app in
         let email := contacts st !! Py.lower recipient in
         if negb (truthy email) then
           emit (ShowError "Error" ("Invalid email address: " +:+ recipient)) ;;; ret false
         else
           modify (with_recipient_var (fmt email)) ;;; ret true
       else ret true) in
    if negb ok then ret false
    else if Py.is_empty body then
      emit (ShowError "Error" "Email body cannot be empty") ;;; ret false
    else ret true.

Definition _confirm_send_email (w : world) (recipient subject body : string) : M bool :=
  let preview := Py.take 50 body +:+ (if (50 <? String.length body)%nat then "..." else "") in
  emit (AskYesNo "Confirm"
          ("Send email to " +:+ recipient +:+ "?" +:+ Py.nl +:+ Py.nl +:+ "Subject: " +:+ subject
           +:+ Py.nl +:+ Py.nl +:+ "Message: " +:+ preview)) ;;;
  ret (askyesno w).

Definition _send_email (w : world) : M unit :=
  let* st := get_app in
  let recipient := Py.strip (recipient_var st) in
  let subject := Py.strip (subject_var st) in
  let body := Py.strip (text_get st) in
  let* valid := _validate_email_form recipient body in
  if negb valid then ret tt
  else
    let* confirmed := _confirm_send_email w recipient subject body in
    if negb confirmed then ret tt
    else
      let '(success, message) := send_email w recipient subject body in
      if success then
        emit (ShowInfo "Success" "Email sent successfully!") ;;;
        log ("Email sent to " +:+ recipient) ;;;
        speak "Email sent successfully" ;;;
        _clear_form
      else
        emit (ShowError "Error" ("Failed to send email: " +:+ message)) ;;;
        log ("Failed to send email: " +:+ message).

Definition _handle_send_intent (w : world) : M unit :=
  _send_email w ;;;
  _reset_conversation_context.

Definition _handle_clear_intent : M unit :=
  _clear_form ;;;
  set_status "Form cleared" ;;;
  speak "Form cleared" ;;;
  _reset_conversation_context.

Definition _handle_unknown_intent : M unit :=
  let* st := get_app in
  if negb (Ctx.in_conversation (current_context st)) then
    log "I'm not sure what you want to do. Try saying 'Send an email to [name]'" ;;;
    set_status "Try 'Send an email to [name]'" ;;;
    speak "I'm not sure what you want to do. Try sending an email to someone."
  else
    log "I didn't understand that in the context of your email. Please try again." ;;;
    set_status "Please try again" ;;;
    speak "I didn't understand that in the context of your email.".

Definition _show_help : M unit :=
  let help_message :=
    "You can say things like:" +:+ Py.nl
    +:+ "- 'Send an email to John about the project'" +:+ Py.nl
    +:+ "- 'The meeting is scheduled for Thursday'" +:+ Py.nl
    +:+ "- 'Send it now'" +:+ Py.nl
    +:+ "- 'Start over'" +:+ Py.nl
    +:+ "- 'Add Sarah to my contacts'" in
  log help_message ;;;
  set_status "Help info in log" ;;;
  speak "I've shown some help in the log".

Definition _show_add_contact_dialog : M unit := emit AddContactDialog.

(** [table.get(key, default)] on a dict written as the list of its
    entries; a key that is [None] is not in a table of strings. *)
Fixpoint table_find {A} (key : string) (table : list (string * A)) : option A :=
  match table with
  | [] => None
  | (k, v) :: rest => if bool_decide (key = k) then Some v else table_find key rest
  end.

Definition table_get {A} (key : option string) (table : list (string * A)) (default : A) : A :=
  match key with
  | Some k => from_option id default (table_find k table)
  | None => default
  end.

Definition intent_handlers (w : world) (analysis : Analysis.t) : list (string * M unit) :=
  [("COMPOSE_EMAIL", _handle_compose_intent analysis);
   ("CONTINUE_BODY", _handle_continue_body_intent analysis);
   ("SEND_EMAIL", _handle_send_intent w);
   ("CLEAR_FORM", _handle_clear_intent);
   ("ADD_CONTACT", _show_add_contact_dialog);
   ("HELP", _show_help);
   ("UNKNOWN", _handle_unknown_intent)].

(** The handler of the intent, with the one of UNKNOWN for an intent
    that is not in the table. *)
Definition _handle_intent (w : world) (analysis : Analysis.t) : M unit :=
  let* intent := lift (dict_item "intent" (Analysis.intent analysis)) in
  let handler := table_get intent (intent_handlers w analysis) _handle_unknown_intent in
  handler.

Definition _handle_command_fallback (w : world) (command : string) : M unit :=
  let command_lower := Py.lower command in
  let* st := get_app in
  if Py.contains "send" command_lower && Py.contains "email" command_lower then
    match Py.split "to" command_lower with
    | _ :: part :: _ =>
        let recipient := hd "" (Py.split " " (Py.strip part)) in
        modify (with_recipient_var recipient) ;;;
        log ("Manually detected recipient: " +:+ recipient) ;;;
        set_status "I need more details" ;;;
        speak "I need more details for your email"
    | _ => ret tt
    end
  else if Py.contains "send" command_lower && negb (Py.is_empty (recipient_var st)) then
    _send_email w
  else if Py.contains "clear" command_lower || Py.contains "start over" command_lower then
    _clear_form ;;;
    set_status "Form cleared" ;;;
    speak "Form cleared" ;;;
    _reset_conversation_context
  else
    set_status "I didn't understand that" ;;;
    speak "I didn't understand that command".

Definition process_voice_command (w : world) (command : string) : M unit :=
  set_status "Processing..." ;;;
  let* st := get_app in
  let conversation_context := _build_conversation_context (current_context st) in
  try_except
    (let* analysis := lift (analyze_command w command conversation_context) in
     if json_truthy analysis then
       match analysis with
       | JDict a =>
           log ("AI understood: "
                +:+ fmt (dict_get_default (Analysis.explanation a) "No explanation provided")) ;;;
           set_context (Ctx.set_in_conversation true) ;;;
           let* intent := lift (dict_item "intent" (Analysis.intent a)) in
           set_context (Ctx.set_last_intent intent) ;;;
           _handle_intent w a
       | _ => raise AttributeError
       end
     else
       _handle_command_fallback w command)
    (fun e =>
       emit (LogException e) ;;;
       set_status "Error occurred").

(** [save_contact] of the add-contact dialog, on the two entries of the
    dialog. *)
Definition save_contact (name_var email_var : string) : M unit :=
  let name := Py.lower (Py.strip name_var) in
  let email := Py.strip email_var in
  if Py.is_empty name || Py.is_empty email then
    emit (ShowError "Error" "Name and email are required")
  else if negb (is_valid_email email) then
    emit (ShowError "Error" "Invalid email address")
  else
    modify (fun st => with_contacts (<[name := email]> (contacts st)) st) ;;;
    log ("Added contact: " +:+ name +:+ " (" +:+ email +:+ ")").

(** ** Turns, runs and reachable states *)

(** The service understood the command as the object [a]. *)
Definition understands (w : world) (command : string) (a : Analysis.t) : Prop :=
  forall conversation_context,
    analyze_command w command conversation_context = Ok (JDict a).

(** A world whose service answers with text that [json.loads] reads as
    [v], and one whose service cannot be reached. *)
Definition reply_world (v : json) (answer : bool) (mail : smtp_result) : world :=
  {| llm_create := Ok "(completion)"; json_loads := fun _ => Ok v;
     askyesno := answer; smtp := mail |}.

Definition offline_world (answer : bool) (mail : smtp_result) : world :=
  {| llm_create := Raised (ServiceError "connection refused");
     json_loads := fun _ => Raised JSONDecodeError;
     askyesno := answer; smtp := mail |}.

(** A world whose service answers with the text [42]. *)
Definition number_reply : world :=
  {| llm_create := Ok " 42 ";
     json_loads := fun content =>
                     if bool_decide (content = "42") then Ok (JInt 42)
                     else Raised JSONDecodeError;
     askyesno := true; smtp := SmtpSent |}.

Definition voice_turn (w : world) (command : string) (st : app) : app :=
  run (process_voice_command w command) st.

(** Turns taken one after the other, oldest first. *)
Definition voice_turns (turns : list (world * string)) (st : app) : app :=
  fold_left (fun s t => voice_turn (fst t) (snd t) s) turns st.

(** What the application can do to its record: a voice turn, the two
    buttons of the form, typing into the form, and saving a contact in
    the dialog. *)
Inductive step : app -> app -> Prop :=
| step_voice w command st :
    step st (voice_turn w command st)
| step_send_button w st :
    step st (run (_send_email w) st)
| step_clear_button st :
    step st (run _clear_form st)
| step_typing r s b st :
    step st (with_recipient_var r (with_subject_var s (with_message_text b st)))
| step_save_contact name email st :
    step st (run (save_contact name email) st).

Inductive reachable (known : gmap string string) : app -> Prop :=
| reachable_init : reachable known (_init_application_state known)
| reachable_step st st' : reachable known st -> step st st' -> reachable known st'.

(** The draft holds nothing: the four fields beside the flag are [None]. *)
Definition draft_blank (c : Ctx.t) : Prop :=
  Ctx.recipient c = None /\ Ctx.subject c = None
  /\ Ctx.partial_body c = None /\ Ctx.last_intent c = None.

(** The value a key of an analysis sets: a string that is not empty. *)
Definition populated (f : field string) : option string :=
  match f with
  | Val v => if Py.is_empty v then None else Some v
  | _ => None
  end.

(** The most recent value a list of analyses (oldest first) sets for a
    key, read from the newest end. *)
Fixpoint most_recent (key : Analysis.t -> field string) (newest_first : list Analysis.t)
  : option string :=
  match newest_first with
  | [] => None
  | a :: older =>
      match populated (key a) with
      | Some v => Some v
      | None => most_recent key older
      end
  end.

(** The body as it is read back from the widget. *)
Definition form_body (st : app) : string := Py.strip (text_get st).

(** A field of the draft that is set: a string that is not empty. *)
Definition set_value (v : option string) : option string :=
  match v with
  | Some s => if Py.is_empty s then None else Some s
  | None => None
  end.

(** The record after the opening of a turn whose analysis is the object
    [a]: status line, log line, flag, and the value under "intent" as
    last intent. *)
Definition entered_with (a : Analysis.t) (intent : option string) (st : app) : app :=
  with_context (Ctx.set_last_intent intent)
    (with_context (Ctx.set_in_conversation true)
       (with_event
          (Log ("AI understood: "
                +:+ fmt (dict_get_default (Analysis.explanation a) "No explanation provided")))
          (with_event (Status "Processing...") st))).

Definition entered (a : Analysis.t) (i : string) (st : app) : app :=
  entered_with a (Some i) st.

(** The [except] branch of [process_voice_command]. *)
Definition on_error (e : exn) : M unit :=
  emit (LogException e) ;;; set_status "Error occurred".

Definition unknown_analysis : Analysis.t :=
  {| Analysis.intent := Val "UNKNOWN"; Analysis.recipient := Null;
     Analysis.subject := Null; Analysis.body := Null;
     Analysis.continue_previous := Val false;
     Analysis.explanation := Val "The request is not about email" |}.

(** Everything in the record but the trace. *)
Definition data (st : app) :=
  (current_context st, recipient_var st, subject_var st, message_text st, contacts st).

(** A new value when there is one, the old one otherwise. *)
Definition keep {A} (new : option A) (old : A) : A := default old new.

(** What a COMPOSE_EMAIL analysis does to the record, stated field by
    field from [populated]. *)
Definition composed (a : Analysis.t) (st : app) : app :=
  let c := current_context st in
  {| current_context :=
       {| Ctx.recipient := keep (Some <$> populated (Analysis.recipient a)) (Ctx.recipient c);
          Ctx.subject := keep (Some <$> populated (Analysis.subject a)) (Ctx.subject c);
          Ctx.partial_body := keep (Some <$> populated (Analysis.body a)) (Ctx.partial_body c);
          Ctx.in_conversation := Ctx.in_conversation c;
          Ctx.last_intent := Ctx.last_intent c |};
     recipient_var :=
       keep ((fun r => default r (contacts st !! Py.lower r))
               <$> populated (Analysis.recipient a)) (recipient_var st);
     subject_var := keep (populated (Analysis.subject a)) (subject_var st);
     message_text := keep (populated (Analysis.body a)) (message_text st);
     contacts := contacts st;
     trace := trace st |}.

Definition compose_analysis (r s b : field string) : Analysis.t :=
  {| Analysis.intent := Val "COMPOSE_EMAIL"; Analysis.recipient := r;
     Analysis.subject := s; Analysis.body := b;
     Analysis.continue_previous := Val false;
     Analysis.explanation := Val "Composing an email" |}.

(** A draft in progress, for the examples. *)
Definition draft_in_progress : app :=
  {| current_context :=
       {| Ctx.recipient := Some "bob"; Ctx.subject := Some "Hi";
          Ctx.partial_body := Some "See you at ten"; Ctx.in_conversation := true;
          Ctx.last_intent := Some "COMPOSE_EMAIL" |};
     recipient_var := "bob@example.com"; subject_var := "Hi";
     message_text := "See you at ten";
     contacts := {[ "bob" := "bob@example.com" ]};
     trace := [] |}.

(** A turn understood as a COMPOSE_EMAIL analysis. *)
Definition compose_turn (t : world * string * Analysis.t) : Prop :=
  understands (fst (fst t)) (snd (fst t)) (snd t)
  /\ Analysis.intent (snd t) = Val "COMPOSE_EMAIL".

Definition continue_analysis (b : field string) (cp : field bool) : Analysis.t :=
  {| Analysis.intent := Val "CONTINUE_BODY"; Analysis.recipient := Null;
     Analysis.subject := Null; Analysis.body := b;
     Analysis.continue_previous := cp;
     Analysis.explanation := Val "More text for the message" |}.

(** A form whose message reads "Hello", nothing else set. *)
Definition hello_form : app :=
  with_message_text "Hello" (_init_application_state ∅).

(** The check of [_validate_email_form] as a condition on the form and
    the contacts. *)
Definition form_valid (recipient body : string) (known : gmap string string) : bool :=
  negb (Py.is_empty recipient)
  && (is_valid_email recipient || truthy (known !! Py.lower recipient))
  && negb (Py.is_empty body).

(** A send from the form of [st] reaches the transport, and the transport
    reports a failure with the message [reason]. *)
Definition send_fails (w : world) (st : app) (reason : string) : Prop :=
  fst (_validate_email_form (Py.strip (recipient_var st)) (form_body st) st) = Ok true
  /\ askyesno w = true
  /\ send_email w (Py.strip (recipient_var st)) (Py.strip (subject_var st)) (form_body st)
     = (false, reason).

Definition send_analysis : Analysis.t :=
  {| Analysis.intent := Val "SEND_EMAIL"; Analysis.recipient := Null;
     Analysis.subject := Null; Analysis.body := Null;
     Analysis.continue_previous := Val false;
     Analysis.explanation := Val "Sending the email" |}.

Definition clear_analysis : Analysis.t :=
  {| Analysis.intent := Val "CLEAR_FORM"; Analysis.recipient := Null;
     Analysis.subject := Null; Analysis.body := Null;
     Analysis.continue_previous := Val false;
     Analysis.explanation := Val "Starting over" |}.

(** C8's invariant: outside a conversation the draft holds nothing. *)
Definition draft_invariant (st : app) : Prop :=
  Ctx.in_conversation (current_context st) = false -> draft_blank (current_context st).

(** What one step can do to the context: leave it, leave it with the
    flag set, or reset it. *)
Definition context_moves (c c' : Ctx.t) : Prop :=
  c' = c \/ Ctx.in_conversation c' = true \/ c' = Ctx.default.


(** A draft whose body is "Hello", after the Clear button of the form
    was pressed: the button empties the form and leaves the context. *)
Definition draft_cleared_by_button : app :=
  run _clear_form
    (voice_turn (reply_world (JDict (compose_analysis Null Null (Val "Hello"))) true SmtpSent)
       "the message is hello" (_init_application_state ∅)).

(** ** Relations a method keeps between the record before and after *)

(** Every run of [m] relates the record it starts from to the one it
    leaves, whether it returns or raises. *)
Definition respects (R : app -> app -> Prop) {A} (m : M A) : Prop :=
  forall st, R st (snd (m st)).

Definition same_contacts (st st' : app) : Prop := contacts st' = contacts st.

Definition same_context (st st' : app) : Prop := current_context st' = current_context st.

(** The trace only grows. *)
Definition trace_extends (st st' : app) : Prop :=
  exists events, trace st' = trace st ++ events.

(** Recipient and subject, in the draft and in the form, are as before. *)
Definition same_headers (st st' : app) : Prop :=
  recipient_var st' = recipient_var st /\ subject_var st' = subject_var st
  /\ Ctx.recipient (current_context st') = Ctx.recipient (current_context st)
  /\ Ctx.subject (current_context st') = Ctx.subject (current_context st).

(** The JSON object without keys. *)
Definition empty_dict : Analysis.t :=
  {| Analysis.intent := Absent; Analysis.recipient := Absent; Analysis.subject := Absent;
     Analysis.body := Absent; Analysis.continue_previous := Absent;
     Analysis.explanation := Absent |}.

(** The keys of the handler table. *)
Definition known_intents : list string :=
  ["COMPOSE_EMAIL"; "CONTINUE_BODY"; "SEND_EMAIL"; "CLEAR_FORM"; "ADD_CONTACT"; "HELP";
   "UNKNOWN"].

(** The world [w] with the language service out of reach. *)
Definition without_service (w : world) : world :=
  {| llm_create := Raised (ServiceError "unreachable"); json_loads := json_loads w;
     askyesno := askyesno w; smtp := smtp w |}.

(** The part of [process_voice_command] inside [try], and the method
    after its first line. *)
Definition turn_attempt (w : world) (command conversation_context : string) : M unit :=
  let* analysis := lift (analyze_command w command conversation_context) in
  if json_truthy analysis then
    match analysis with
    | JDict a =>
        log ("AI understood: "
             +:+ fmt (dict_get_default (Analysis.explanation a) "No explanation provided")) ;;;
        set_context (Ctx.set_in_conversation true) ;;;
        let* intent := lift (dict_item "intent" (Analysis.intent a)) in
        set_context (Ctx.set_last_intent intent) ;;;
        _handle_intent w a
    | _ => raise AttributeError
    end
  else
    _handle_command_fallback w command.

Definition turn_body (w : world) (command : string) : M unit :=
  let* st := get_app in
  let conversation_context := _build_conversation_context (current_context st) in
  try_except (turn_attempt w command conversation_context) on_error.

(** An object with an explanation and no intent. *)
Definition no_intent_analysis : Analysis.t :=
  {| Analysis.intent := Absent; Analysis.recipient := Val "bob"; Analysis.subject := Absent;
     Analysis.body := Absent; Analysis.continue_previous := Absent;
     Analysis.explanation := Val "An email for Bob" |}.

Definition lowercase_send_analysis : Analysis.t :=
  {| Analysis.intent := Val "send_email"; Analysis.recipient := Null;
     Analysis.subject := Null; Analysis.body := Null;
     Analysis.continue_previous := Val false; Analysis.explanation := Absent |}.

(** The fields of the form that are empty, by the names the guidance
    uses, in the order recipient, subject, message body. *)
Definition missing_fields (st : app) : list string :=
  fst <$> filter (fun field => snd field = "")
            [("recipient", recipient_var st); ("subject", subject_var st);
             ("message body", form_body st)].

(** The text of the confirmation box. *)
Definition confirm_question (recipient subject body : string) : string :=
  "Send email to " +:+ recipient +:+ "?" +:+ Py.nl +:+ Py.nl +:+ "Subject: " +:+ subject
  +:+ Py.nl +:+ Py.nl +:+ "Message: "
  +:+ Py.take 50 body +:+ (if (50 <? String.length body)%nat then "..." else "").

(** The record after a validation that passed: a contact name in the
    recipient entry has been replaced by its address. *)
Definition validated (st : app) : app :=
  let r := Py.strip (recipient_var st) in
  if is_valid_email r then st else with_recipient_var (fmt (contacts st !! Py.lower r)) st.

(** The form without text. *)
Definition cleared (st : app) : app :=
  with_event (Log "Form cleared")
    (with_message_text "" (with_subject_var "" (with_recipient_var "" st))).

(** A form that is ready to send to a contact by name. *)
Definition named_form : app :=
  {| current_context := Ctx.default; recipient_var := " Bob "; subject_var := "Hi";
     message_text := "See you at ten";
     contacts := {[ "bob" := "bob@example.com" ]}; trace := [] |}.

(** ** The language of a regular expression *)

(** The strings a regular expression matches, piece by piece. *)
Inductive re_matches : Re.re -> string -> Prop :=
| m_eps : re_matches Re.Eps ""
| m_cls p c : p c = true -> re_matches (Re.Cls p) (String c "")
| m_cat r1 r2 s1 s2 :
    re_matches r1 s1 -> re_matches r2 s2 -> re_matches (Re.Cat r1 r2) (s1 +:+ s2)
| m_alt_l r1 r2 s : re_matches r1 s -> re_matches (Re.Alt r1 r2) s
| m_alt_r r1 r2 s : re_matches r2 s -> re_matches (Re.Alt r1 r2) s
| m_star_nil r : re_matches (Re.Star r) ""
| m_star_cons r s1 s2 :
    re_matches r s1 -> re_matches (Re.Star r) s2 -> re_matches (Re.Star r) (s1 +:+ s2).

(** Every character of the string is in the class. *)
Fixpoint string_forall (p : ascii -> bool) (s : string) : bool :=
  match s with
  | EmptyString => true
  | String c s' => p c && string_forall p s'
  end.

(** The two character classes of the pattern of [is_valid_email]. *)
Definition local_char (c : ascii) : bool := is_alpha c || is_digit c || one_of "._%+-" c.
Definition domain_char (c : ascii) : bool := is_alpha c || is_digit c || one_of ".-" c.

(** local@domain.tld: the three parts are not empty and made of the
    characters of their class, the last of at least two letters. *)
Definition address_shape (s : string) : Prop :=
  exists local domain tld,
    s = local +:+ "@" +:+ domain +:+ "." +:+ tld
    /\ local <> "" /\ string_forall local_char local = true
    /\ domain <> "" /\ string_forall domain_char domain = true
    /\ (2 <= String.length tld)%nat /\ string_forall is_alpha tld = true.

(** ** core/settings.py *)

(** How [load_environment] ends: with the credentials, or with the
    error box and [sys.exit(1)]. *)
Inductive startup : Type :=
| Credentials (openai_key gmail_user gmail_pass : string)
| SystemExit (code : Z) (title message : string).

(** [load_environment] on the environment left by [load_dotenv]:
    [os.getenv] of a name that is not set is [None]. *)
Definition load_environment (environ : gmap string string) : startup :=
  let creds :=
    [("openai_key", environ !! "OPENAI_API_KEY");
     ("gmail_user", environ !! "GMAIL_USER");
     ("gmail_pass", environ !! "GMAIL_APP_PASSWORD")] in
  let missing := fst <$> filter (fun kv => truthy (snd kv) = false) creds in
  match missing with
  | [] =>
      Credentials (fmt (environ !! "OPENAI_API_KEY")) (fmt (environ !! "GMAIL_USER"))
        (fmt (environ !! "GMAIL_APP_PASSWORD"))
  | _ =>
      SystemExit 1 "Missing Credentials" ("Missing credentials: " +:+ Py.join ", " missing)
  end.

(** The variable is set to a string that is not empty. *)
Definition is_set (environ : gmap string string) (name : string) : Prop :=
  exists value, environ !! name = Some value /\ value <> "".
(** * Properties *)

(** ** The string operations on examples *)

Example lower_ex : Py.lower "Send An Email TO Sarah" = "send an email to sarah".
Proof. reflexivity. Qed.

Example strip_ex : Py.strip ("  a b " +:+ Py.nl) = "a b".
Proof. reflexivity. Qed.

Example split_word_to :
  Py.split "to" "send an email to sarah about the meeting"
  = ["send an email "; " sarah about the meeting"].
Proof. reflexivity. Qed.

Example split_inside_word :
  Py.split "to" "send an email to tom" = ["send an email "; " "; "m"].
Proof. reflexivity. Qed.

Example split_empty : Py.split " " "" = [""].
Proof. reflexivity. Qed.

Example split_no_overlap : Py.split "aa" "aaa" = [""; "a"].
Proof. reflexivity. Qed.

Example join_ex : Py.join ", " ["recipient"; "subject"] = "recipient, subject".
Proof. reflexivity. Qed.

Example valid_address : is_valid_email "bob@example.com" = true.
Proof. vm_compute. reflexivity. Qed.

Example valid_needs_at : is_valid_email "sarah" = false.
Proof. vm_compute. reflexivity. Qed.

Example valid_needs_two_letters : is_valid_email "a.b-c@mail.example.c" = false.
Proof. vm_compute. reflexivity. Qed.

Example valid_final_newline : is_valid_email ("a@b.co" +:+ Py.nl) = true.
Proof. vm_compute. reflexivity. Qed.

(** ** The analysis step *)

Lemma analyze_command_total w command context :
  exists v, analyze_command w command context = Ok v.
Proof.
  unfold analyze_command, try_catch.
  destruct (llm_create w) as [text|e]; [|eauto].
  destruct (json_loads w (Py.strip text)) as [v|e]; [eauto|].
  destruct e; eauto.
Qed.

Lemma analyze_command_service_error w command context e :
  llm_create w = Raised e -> analyze_command w command context = Ok JNull.
Proof. intros H. unfold analyze_command. rewrite H. reflexivity. Qed.

Lemma analyze_command_not_json w command context text e :
  llm_create w = Ok text -> json_loads w (Py.strip text) = Raised e ->
  analyze_command w command context = Ok JNull.
Proof.
  intros H1 H2. unfold analyze_command. rewrite H1, H2.
  destruct e; reflexivity.
Qed.

Lemma analyze_command_parsed w command context text v :
  llm_create w = Ok text -> json_loads w (Py.strip text) = Ok v ->
  analyze_command w command context = Ok v.
Proof. intros H1 H2. unfold analyze_command. rewrite H1, H2. reflexivity. Qed.

Lemma reply_world_understands a answer mail command :
  understands (reply_world (JDict a) answer mail) command a.
Proof. intros context. reflexivity. Qed.

Lemma offline_world_none answer mail command context :
  analyze_command (offline_world answer mail) command context = Ok JNull.
Proof. reflexivity. Qed.

(** C10, at the input where it fails: the service answers with the text
    of a number, [json.loads] reads it as that number, and
    [analyze_command] returns the number, which is neither an object nor
    [None]. *)
Theorem analyze_command_returns_number :
  llm_create number_reply = Ok " 42 "
  /\ json_loads number_reply "42" = Ok (JInt 42)
  /\ analyze_command number_reply "send it" "" = Ok (JInt 42)
  /\ JInt 42 <> JNull
  /\ (forall a, JInt 42 <> JDict a).
Proof.
  split; [reflexivity|]. split; [reflexivity|]. split; [reflexivity|].
  split; [discriminate|]. intros a. discriminate.
Qed.

(** The turn survives it: the value is true and has no [get], the
    [except] branch of the turn logs the error, and the draft stays. *)
Example number_reply_turn :
  let st' := voice_turn number_reply "send it" (_init_application_state ∅) in
  trace st' = [Status "Processing..."; LogException AttributeError; Status "Error occurred"]
  /\ current_context st' = Ctx.default.
Proof. vm_compute. split; reflexivity. Qed.

(** ** The opening of a turn *)

Lemma intent_nonempty a i :
  Analysis.intent a = Val i -> Analysis.nonempty a = true.
Proof. intros H. unfold Analysis.nonempty. rewrite H. reflexivity. Qed.

Lemma process_voice_command_dict w command a i st :
  understands w command a -> Analysis.intent a = Val i ->
  process_voice_command w command st
  = try_except (_handle_intent w a) on_error (entered a i st).
Proof.
  intros Hu Hi.
  unfold process_voice_command, bind, try_except, set_status, emit, modify,
    get_app, lift; simpl.
  rewrite (Hu _); simpl.
  rewrite (intent_nonempty a i Hi), Hi; simpl.
  reflexivity.
Qed.

Lemma process_voice_command_none w command st :
  (forall context, analyze_command w command context = Ok JNull) ->
  process_voice_command w command st
  = try_except (_handle_command_fallback w command) on_error
      (with_event (Status "Processing...") st).
Proof.
  intros Hn.
  unfold process_voice_command, bind, try_except, set_status, emit, modify,
    get_app, lift; simpl.
  rewrite (Hn _); simpl. reflexivity.
Qed.

(** ** The context summary *)

Lemma append_cons c (s1 s2 : string) : String c s1 +:+ s2 = String c (s1 +:+ s2).
Proof. reflexivity. Qed.

Lemma append_assoc (s1 s2 s3 : string) : (s1 +:+ s2) +:+ s3 = s1 +:+ s2 +:+ s3.
Proof.
  induction s1 as [|c s1 IH]; [reflexivity|]. rewrite !append_cons, IH. reflexivity.
Qed.

(** C9 as the code has it: the summary is the empty string outside a
    conversation, and inside one when no field is set; otherwise it is
    the text "Current email draft: ", then the fields that are set, each
    after its label, in the order recipient, subject, body and separated
    by "; ", then ". ". *)
Theorem context_summary_lists_set_fields (c : Ctx.t) :
  _build_conversation_context c
  = if Ctx.in_conversation c
    then match set_value (Ctx.recipient c), set_value (Ctx.subject c),
               set_value (Ctx.partial_body c) with
         | Some x, Some y, Some z =>
             "Current email draft: Recipient: " +:+ x +:+ "; Subject: " +:+ y
             +:+ "; Previous message content: " +:+ z +:+ ". "
         | Some x, Some y, None =>
             "Current email draft: Recipient: " +:+ x +:+ "; Subject: " +:+ y +:+ ". "
         | Some x, None, Some z =>
             "Current email draft: Recipient: " +:+ x
             +:+ "; Previous message content: " +:+ z +:+ ". "
         | Some x, None, None => "Current email draft: Recipient: " +:+ x +:+ ". "
         | None, Some y, Some z =>
             "Current email draft: Subject: " +:+ y
             +:+ "; Previous message content: " +:+ z +:+ ". "
         | None, Some y, None => "Current email draft: Subject: " +:+ y +:+ ". "
         | None, None, Some z =>
             "Current email draft: Previous message content: " +:+ z +:+ ". "
         | None, None, None => ""
         end
    else "".
Proof.
  unfold _build_conversation_context, context_parts.
  destruct c as [r s b conv li]; simpl.
  destruct conv; simpl; [|reflexivity].
  destruct r as [[|? ?]|], s as [[|? ?]|], b as [[|? ?]|]; simpl;
    rewrite ?append_assoc; reflexivity.
Qed.

(** C9 as stated fails: with recipient, subject and body set, the
    summary is not the listing "Recipient: X; Subject: Y; Previous message
    content: Z" itself but that listing after "Current email draft: " and
    before ". ". *)
Lemma context_summary_is_wrapped :
  let c := {| Ctx.recipient := Some "Sarah"; Ctx.subject := Some "Meeting";
              Ctx.partial_body := Some "See you at ten"; Ctx.in_conversation := true;
              Ctx.last_intent := Some "COMPOSE_EMAIL" |} in
  _build_conversation_context c
  = "Current email draft: Recipient: Sarah; Subject: Meeting; Previous message content: See you at ten. "
  /\ _build_conversation_context c
     <> "Recipient: Sarah; Subject: Meeting; Previous message content: See you at ten".
Proof. split; [reflexivity|]. vm_compute. discriminate. Qed.

Example context_summary_full :
  _build_conversation_context
    {| Ctx.recipient := Some "Sarah"; Ctx.subject := Some "Meeting";
       Ctx.partial_body := Some "See you at ten"; Ctx.in_conversation := true;
       Ctx.last_intent := Some "COMPOSE_EMAIL" |}
  = "Current email draft: Recipient: Sarah; Subject: Meeting; Previous message content: See you at ten. ".
Proof. reflexivity. Qed.

Example context_summary_skips_unset :
  _build_conversation_context
    {| Ctx.recipient := None; Ctx.subject := Some ""; 
       Ctx.partial_body := Some "See you at ten"; Ctx.in_conversation := true;
       Ctx.last_intent := Some "CONTINUE_BODY" |}
  = "Current email draft: Previous message content: See you at ten. ".
Proof. reflexivity. Qed.

(** ** Unknown intent *)

Lemma _handle_unknown_intent_first st :
  Ctx.in_conversation (current_context st) = false ->
  trace (run _handle_unknown_intent st)
  = trace st ++
    [Log "I'm not sure what you want to do. Try saying 'Send an email to [name]'";
     Status "Try 'Send an email to [name]'";
     Speak "I'm not sure what you want to do. Try sending an email to someone."].
Proof.
  intros H. unfold run, _handle_unknown_intent, bind, get_app; simpl.
  rewrite H; simpl. rewrite <- !app_assoc. reflexivity.
Qed.

(** Reached through [process_voice_command], the handler always finds
    the flag set, so every turn with intent UNKNOWN gets the second
    message. *)
Lemma unknown_turn_trace w command a st :
  understands w command a -> Analysis.intent a = Val "UNKNOWN" ->
  trace (voice_turn w command st)
  = trace st ++
    [Status "Processing...";
     Log ("AI understood: "
          +:+ fmt (dict_get_default (Analysis.explanation a) "No explanation provided"));
     Log "I didn't understand that in the context of your email. Please try again.";
     Status "Please try again";
     Speak "I didn't understand that in the context of your email."].
Proof.
  intros Hu Hi. unfold voice_turn, run.
  rewrite (process_voice_command_dict w command a "UNKNOWN" st Hu Hi).
  unfold try_except, _handle_intent, bind, lift. rewrite Hi; simpl.
  rewrite <- !app_assoc. reflexivity.
Qed.

(** C1, at the input where it fails: the first turn of a session, flag
    [in_conversation] false, analysis with intent UNKNOWN.  The turn
    speaks the message meant for a draft in progress, not the guidance
    for a first interaction. *)
Theorem unknown_first_turn_gets_draft_message :
  let st := _init_application_state ∅ in
  let w := reply_world (JDict unknown_analysis) true SmtpSent in
  Ctx.in_conversation (current_context st) = false
  /\ trace (voice_turn w "what is the weather" st)
     = [Status "Processing...";
        Log "AI understood: The request is not about email";
        Log "I didn't understand that in the context of your email. Please try again.";
        Status "Please try again";
        Speak "I didn't understand that in the context of your email."].
Proof. split; reflexivity. Qed.

(** ** Composing *)

Lemma try_except_ok {A} (m : M A) h st a :
  fst (m st) = Ok a -> try_except m h st = m st.
Proof. unfold try_except. destruct (m st) as [[x|e] st']; simpl; congruence. Qed.

Lemma _provide_next_step_guidance_data st :
  fst (_provide_next_step_guidance st) = Ok tt
  /\ data (snd (_provide_next_step_guidance st)) = data st.
Proof.
  unfold _provide_next_step_guidance, bind, get_app; simpl.
  destruct (Py.is_empty (recipient_var st)), (Py.is_empty (subject_var st)),
    (Py.is_empty (Py.strip (text_get st))); simpl; split; reflexivity.
Qed.

Lemma _handle_compose_intent_data a st :
  fst (_handle_compose_intent a st) = Ok tt
  /\ data (run (_handle_compose_intent a) st) = data (composed a st).
Proof.
  destruct a as [i r s b cp ex].
  destruct st as [[cr cs cb cv cl] rv sv mt ct tr].
  unfold run, _handle_compose_intent, composed, populated.
  destruct r as [| |[|r0 r]], s as [| |[|s0 s]], b as [| |[|b0 b]];
    cbn -[_provide_next_step_guidance];
    match goal with
    | |- context [_provide_next_step_guidance ?x] =>
        destruct (_provide_next_step_guidance_data x) as [-> ->]
    end; split; reflexivity.
Qed.

Lemma compose_turn_data w command a st :
  understands w command a -> Analysis.intent a = Val "COMPOSE_EMAIL" ->
  data (voice_turn w command st) = data (composed a (entered a "COMPOSE_EMAIL" st)).
Proof.
  intros Hu Hi. unfold voice_turn, run.
  rewrite (process_voice_command_dict w command a _ st Hu Hi).
  assert (He : _handle_intent w a = _handle_compose_intent a).
  { unfold _handle_intent. rewrite Hi. reflexivity. }
  rewrite He.
  destruct (_handle_compose_intent_data a (entered a "COMPOSE_EMAIL" st)) as [Hok Hd].
  rewrite (try_except_ok _ _ _ _ Hok). exact Hd.
Qed.

Lemma entered_context a i st :
  current_context (entered a i st)
  = Ctx.set_last_intent (Some i) (Ctx.set_in_conversation true (current_context st)).
Proof. reflexivity. Qed.

(** C3 as the code has it: after a COMPOSE_EMAIL turn each of recipient,
    subject and body of the draft holds the value of the analysis when
    that is a string that is not empty, and its previous value in every
    other case: key missing, [null], or the empty string. *)
Theorem compose_changes_only_populated_fields w command a st :
  understands w command a -> Analysis.intent a = Val "COMPOSE_EMAIL" ->
  let c := current_context st in
  let c' := current_context (voice_turn w command st) in
  Ctx.recipient c' = keep (Some <$> populated (Analysis.recipient a)) (Ctx.recipient c)
  /\ Ctx.subject c' = keep (Some <$> populated (Analysis.subject a)) (Ctx.subject c)
  /\ Ctx.partial_body c' = keep (Some <$> populated (Analysis.body a)) (Ctx.partial_body c)
  /\ populated Absent = None /\ populated Null = None /\ populated (Val "") = None
  /\ (forall x xs, populated (Val (String x xs)) = Some (String x xs)).
Proof.
  intros Hu Hi c c'.
  pose proof (compose_turn_data w command a st Hu Hi) as Hd.
  unfold data in Hd. injection Hd as Hc _ _ _ _.
  subst c c'. rewrite Hc. simpl.
  repeat split; reflexivity.
Qed.

Lemma compose_changes_only_populated_fields_witness :
  let w := reply_world (JDict (compose_analysis (Val "Sarah") Null (Val ""))) true SmtpSent in
  let c' := current_context (voice_turn w "make it to sarah" draft_in_progress) in
  Ctx.recipient c' = Some "Sarah" /\ Ctx.subject c' = Some "Hi"
  /\ Ctx.partial_body c' = Some "See you at ten".
Proof.
  intros w c'.
  destruct (compose_changes_only_populated_fields w "make it to sarah"
              (compose_analysis (Val "Sarah") Null (Val "")) draft_in_progress)
    as (Hr & Hs & Hb & _).
  - apply reply_world_understands.
  - reflexivity.
  - subst c'. rewrite Hr, Hs, Hb. repeat split; reflexivity.
Defined.

(** C3 as stated fails: an analysis whose subject is the empty string, a
    key that is present, does not write the empty string to the draft.
    The subject "Hi" stays, and the whole turn is the one of the analysis
    that has no subject key, so the empty string is not told apart from
    absence. *)
Lemma empty_string_is_treated_as_absent :
  let with_empty := compose_analysis Absent (Val "") Absent in
  let without := compose_analysis Absent Absent Absent in
  let turn a := voice_turn (reply_world (JDict a) true SmtpSent) "change it" draft_in_progress in
  Ctx.subject (current_context (turn with_empty)) = Some "Hi"
  /\ Ctx.subject (current_context (turn with_empty)) <> Some ""
  /\ subject_var (turn with_empty) = "Hi"
  /\ data (turn with_empty) = data (turn without)
  /\ trace (turn with_empty) = trace (turn without).
Proof.
  vm_compute. repeat split; try reflexivity. discriminate.
Qed.

(** ** Sequences of COMPOSE_EMAIL analyses *)

Lemma most_recent_app key l1 l2 :
  most_recent key (l1 ++ l2)
  = match most_recent key l1 with
    | Some v => Some v
    | None => most_recent key l2
    end.
Proof.
  induction l1 as [|a l1 IH]; simpl; [reflexivity|].
  destruct (populated (key a)); [reflexivity|exact IH].
Qed.

Lemma keep_most_recent key a older (old : option string) :
  keep (Some <$> most_recent key older) (keep (Some <$> populated (key a)) old)
  = keep (Some <$> most_recent key (older ++ [a])) old.
Proof.
  rewrite most_recent_app. simpl.
  destruct (most_recent key older); simpl; [reflexivity|].
  destruct (populated (key a)); reflexivity.
Qed.

Lemma voice_turns_cons t turns st :
  voice_turns (t :: turns) st = voice_turns turns (voice_turn (fst t) (snd t) st).
Proof. reflexivity. Qed.

(** A second turn with the same analysis finds everything already in
    place. *)
Lemma compose_turn_twice a s1 st :
  data s1 = data (composed a (entered a "COMPOSE_EMAIL" st)) ->
  data (composed a (entered a "COMPOSE_EMAIL" s1)) = data s1.
Proof.
  destruct st as [[cr cs cb cv cl] rv sv mt ct tr].
  destruct s1 as [c1 r1 v1 m1 k1 t1].
  destruct a as [i r s b cp ex].
  unfold data, composed, entered, keep; simpl.
  intros H. injection H as -> -> -> -> ->.
  destruct (populated r), (populated s), (populated b); reflexivity.
Qed.

Lemma composed_entered_data a s1 s2 :
  data s1 = data s2 ->
  data (composed a (entered a "COMPOSE_EMAIL" s1))
  = data (composed a (entered a "COMPOSE_EMAIL" s2)).
Proof.
  destruct s1 as [c1 r1 v1 m1 k1 t1], s2 as [c2 r2 v2 m2 k2 t2].
  unfold data; simpl. intros H. injection H as -> -> -> -> ->. reflexivity.
Qed.

Lemma compose_turn_idempotent w command a st :
  understands w command a -> Analysis.intent a = Val "COMPOSE_EMAIL" ->
  data (voice_turn w command (voice_turn w command st)) = data (voice_turn w command st).
Proof.
  intros Hu Hi.
  rewrite (compose_turn_data w command a (voice_turn w command st) Hu Hi).
  apply (compose_turn_twice a _ st). apply compose_turn_data; assumption.
Qed.

(** C6: after any list of COMPOSE_EMAIL turns each of recipient, subject
    and body of the draft holds the value set most recently in the list,
    and the value it had before the list when no turn set it (so a field
    that was unset and is never set stays unset); taking the last turn of
    the list once more changes nothing in the draft or in the form. *)
Theorem compose_sequence_holds_latest (turns : list (world * string * Analysis.t)) (st : app) :
  Forall compose_turn turns ->
  let st' := voice_turns (fst <$> turns) st in
  let newest_first := rev (snd <$> turns) in
  let c := current_context st in
  let c' := current_context st' in
  Ctx.recipient c'
    = keep (Some <$> most_recent Analysis.recipient newest_first) (Ctx.recipient c)
  /\ Ctx.subject c'
    = keep (Some <$> most_recent Analysis.subject newest_first) (Ctx.subject c)
  /\ Ctx.partial_body c'
    = keep (Some <$> most_recent Analysis.body newest_first) (Ctx.partial_body c)
  /\ (forall t, last turns = Some t ->
        data (voice_turn (fst (fst t)) (snd (fst t)) st') = data st').
Proof.
  intros Hall. revert st.
  induction Hall as [|[[w command] a] turns [Hu Hi] Hall IH]; intros st.
  - simpl. repeat split; try reflexivity. intros t Ht. discriminate.
  - simpl in Hu, Hi.
    specialize (IH (voice_turn w command st)).
    cbn zeta in IH. destruct IH as (Hr & Hs & Hb & Hlast).
    pose proof (compose_turn_data w command a st Hu Hi) as Hd.
    unfold data in Hd. injection Hd as Hc _ _ _ _.
    cbn zeta. rewrite fmap_cons, voice_turns_cons. simpl fst. simpl snd.
    rewrite fmap_cons. simpl rev. simpl snd.
    rewrite Hr, Hs, Hb, Hc.
    split; [|split; [|split]].
    + apply keep_most_recent.
    + apply keep_most_recent.
    + apply keep_most_recent.
    + intros t Ht. destruct turns as [|t' turns].
      * simpl in Ht. injection Ht as <-. simpl.
        apply (compose_turn_idempotent w command a st Hu Hi).
      * apply Hlast. exact Ht.
Qed.

Lemma compose_sequence_holds_latest_witness :
  let t1 := (reply_world (JDict (compose_analysis (Val "bob") (Val "Lunch") Null)) true SmtpSent,
             "email bob about lunch", compose_analysis (Val "bob") (Val "Lunch") Null) in
  let t2 := (reply_world (JDict (compose_analysis (Val "sarah") Absent (Val ""))) true SmtpSent,
             "make it to sarah", compose_analysis (Val "sarah") Absent (Val "")) in
  let st' := voice_turns [fst t1; fst t2] (_init_application_state ∅) in
  Ctx.recipient (current_context st') = Some "sarah"
  /\ Ctx.subject (current_context st') = Some "Lunch"
  /\ Ctx.partial_body (current_context st') = None
  /\ data (voice_turn (fst (fst t2)) (snd (fst t2)) st') = data st'.
Proof.
  intros t1 t2 st'.
  destruct (compose_sequence_holds_latest [t1; t2] (_init_application_state ∅))
    as (Hr & Hs & Hb & Hlast).
  - repeat constructor; intros context; reflexivity.
  - subst st'. split; [exact Hr|]. split; [exact Hs|]. split; [exact Hb|].
    apply (Hlast t2). reflexivity.
Defined.

(** ** Continuing the body *)

Lemma on_error_data e st :
  data (snd (on_error e st)) = data st.
Proof. destruct st. reflexivity. Qed.

Lemma try_except_on_error_data (m : M unit) st :
  data (snd (try_except m on_error st)) = data (snd (m st)).
Proof.
  unfold try_except. destruct (m st) as [[x|e] st']; simpl; [reflexivity|].
  apply on_error_data.
Qed.

(** The draft and the form after a turn are those the handler of the
    intent leaves, whether it returns or raises. *)
Lemma turn_data w command a i st :
  understands w command a -> Analysis.intent a = Val i ->
  data (voice_turn w command st) = data (run (_handle_intent w a) (entered a i st)).
Proof.
  intros Hu Hi. unfold voice_turn, run.
  rewrite (process_voice_command_dict w command a i st Hu Hi).
  apply try_except_on_error_data.
Qed.

Lemma data_message_text st st' : data st = data st' -> message_text st = message_text st'.
Proof. unfold data. intros H. injection H as _ _ _ H _. exact H. Qed.

Lemma data_context st st' : data st = data st' -> current_context st = current_context st'.
Proof. unfold data. intros H. injection H as H _ _ _ _. exact H. Qed.

Lemma continue_previous_true (cp : field bool) :
  bool_decide (dict_get_default cp false = Some true) = true <-> cp = Val true.
Proof.
  rewrite bool_decide_eq_true. destruct cp as [| |[|]]; simpl; split; congruence.
Qed.

(** C5 as the code has it, for an analysis whose body is a string (or
    has no "body" key, which reads as the empty string): the body a
    CONTINUE_BODY turn tests and extends is the text of the message
    widget, stripped.  When [continue_previous] is true and that text is
    not empty, the new body, in the widget and in the draft, is that
    text, one space, and the body of the analysis; in every other case
    the body of the analysis replaces it. *)
Theorem continue_body_appends_or_replaces w command a b st :
  understands w command a -> Analysis.intent a = Val "CONTINUE_BODY" ->
  dict_get_default (Analysis.body a) "" = Some b ->
  let st' := voice_turn w command st in
  (Analysis.continue_previous a = Val true -> form_body st <> "" ->
   message_text st' = form_body st +:+ " " +:+ b
   /\ Ctx.partial_body (current_context st') = Some (form_body st +:+ " " +:+ b))
  /\ (Analysis.continue_previous a <> Val true \/ form_body st = "" ->
      message_text st' = b /\ Ctx.partial_body (current_context st') = Some b).
Proof.
  intros Hu Hi Hb st'. subst st'.
  pose proof (turn_data w command a _ st Hu Hi) as Hd.
  assert (He : _handle_intent w a = _handle_continue_body_intent a).
  { unfold _handle_intent. rewrite Hi. reflexivity. }
  rewrite He in Hd. clear He.
  rewrite (data_message_text _ _ Hd), (data_context _ _ Hd). clear Hd.
  unfold run, _handle_continue_body_intent, bind, get_app.
  cbn [fst snd].
  change (Py.strip (text_get (entered a "CONTINUE_BODY" st))) with (form_body st).
  rewrite Hb. split.
  - intros Hcp Hne.
    apply continue_previous_true in Hcp. rewrite Hcp.
    destruct (form_body st) as [|x xs] eqn:Hf; [congruence|].
    destruct st as [[cr cs cb cv cl] rv sv mt ct tr]. split; reflexivity.
  - intros Hor.
    assert (Hcond : bool_decide (dict_get_default (Analysis.continue_previous a) false
                                 = Some true)
                    && negb (Py.is_empty (form_body st)) = false).
    { destruct Hor as [Hcp | Hf].
      - destruct (bool_decide _) eqn:Hbd; [|reflexivity].
        apply continue_previous_true in Hbd. contradiction.
      - rewrite Hf. apply andb_false_r. }
    rewrite Hcond.
    destruct st as [[cr cs cb cv cl] rv sv mt ct tr]. split; reflexivity.
Qed.

Lemma continue_body_appends_or_replaces_witness :
  let turn cp :=
    voice_turn (reply_world (JDict (continue_analysis (Val "world") cp)) true SmtpSent)
      "world" hello_form in
  message_text (turn (Val true)) = "Hello world"
  /\ Ctx.partial_body (current_context (turn (Val true))) = Some "Hello world"
  /\ message_text (turn (Val false)) = "world"
  /\ Ctx.partial_body (current_context (turn (Val false))) = Some "world".
Proof.
  intros turn.
  destruct (continue_body_appends_or_replaces
              (reply_world (JDict (continue_analysis (Val "world") (Val true))) true SmtpSent)
              "world" (continue_analysis (Val "world") (Val true)) "world" hello_form)
    as [Happend _]; [apply reply_world_understands | reflexivity | reflexivity |].
  destruct Happend as [Hm Hp]; [reflexivity | discriminate |].
  destruct (continue_body_appends_or_replaces
              (reply_world (JDict (continue_analysis (Val "world") (Val false))) true SmtpSent)
              "world" (continue_analysis (Val "world") (Val false)) "world" hello_form)
    as [_ Hreplace]; [apply reply_world_understands | reflexivity | reflexivity |].
  destruct Hreplace as [Hm' Hp']; [left; discriminate |].
  subst turn. cbv beta.
  split; [exact Hm|]. split; [exact Hp|]. split; [exact Hm'|exact Hp'].
Defined.

(** C5 as stated fails, in three ways.  The draft holds the body
    "Hello" and the form was emptied with the Clear button: a
    continuation "world" replaces the body, it is not appended to
    "Hello".  The draft holds no body and "Hello" was typed into the
    message widget: the continuation is appended to what was typed.  And
    with a body of [null] in an analysis that continues, the handler
    raises on [str + None]: the turn reports an error and the body is
    neither extended nor replaced. *)
Lemma continue_body_reads_the_widget :
  let w b := reply_world (JDict (continue_analysis b (Val true))) true SmtpSent in
  (Ctx.partial_body (current_context draft_cleared_by_button) = Some "Hello"
   /\ message_text draft_cleared_by_button = ""
   /\ message_text (voice_turn (w (Val "world")) "world" draft_cleared_by_button) = "world"
   /\ Ctx.partial_body
        (current_context (voice_turn (w (Val "world")) "world" draft_cleared_by_button))
      = Some "world")
  /\ (Ctx.partial_body (current_context hello_form) = None
      /\ message_text (voice_turn (w (Val "world")) "world" hello_form) = "Hello world")
  /\ (message_text (voice_turn (w Null) "and" draft_in_progress) = "See you at ten"
      /\ Ctx.partial_body (current_context (voice_turn (w Null) "and" draft_in_progress))
         = Some "See you at ten"
      /\ trace (voice_turn (w Null) "and" draft_in_progress)
         = [Status "Processing..."; Log "AI understood: More text for the message";
            LogException TypeError; Status "Error occurred"]).
Proof. vm_compute. repeat split. Qed.

Example draft_cleared_by_button_reachable : reachable ∅ draft_cleared_by_button.
Proof.
  unfold draft_cleared_by_button.
  eapply reachable_step; [eapply reachable_step; [apply reachable_init|]|].
  - apply step_voice.
  - apply step_clear_button.
Qed.

Example continue_body_null_in_append :
  let st' := voice_turn (reply_world (JDict (continue_analysis Null (Val true))) true SmtpSent)
               "and" hello_form in
  message_text st' = "Hello" /\ last (trace st') = Some (Status "Error occurred")
  /\ In (LogException TypeError) (trace st').
Proof. vm_compute. split; [reflexivity|]. split; [reflexivity|]. auto. Qed.

(** ** Sending *)

Lemma _validate_email_form_result r b st :
  fst (_validate_email_form r b st) = Ok (form_valid r b (contacts st))
  /\ (form_valid r b (contacts st) = true ->
      snd (_validate_email_form r b st)
      = if is_valid_email r then st
        else with_recipient_var (fmt (contacts st !! Py.lower r)) st)
  /\ data (snd (_validate_email_form r b st))
     = (current_context st,
        (if form_valid r b (contacts st) || (negb (Py.is_empty r) && negb (is_valid_email r)
                                             && truthy (contacts st !! Py.lower r))
         then (if is_valid_email r then recipient_var st
               else fmt (contacts st !! Py.lower r))
         else recipient_var st),
        subject_var st, message_text st, contacts st).
Proof.
  destruct st as [c rv sv mt ct tr].
  unfold _validate_email_form, form_valid, bind, get_app, data; simpl.
  destruct (Py.is_empty r); simpl; [repeat split; congruence|].
  destruct (is_valid_email r); simpl.
  - destruct (Py.is_empty b); simpl; repeat split; congruence.
  - destruct (truthy (ct !! Py.lower r)); simpl; [|repeat split; congruence].
    destruct (Py.is_empty b); simpl; repeat split; congruence.
Qed.

Lemma _send_email_ok w st : fst (_send_email w st) = Ok tt.
Proof.
  unfold _send_email, bind, get_app; cbn [fst snd].
  destruct (_validate_email_form_result (Py.strip (recipient_var st))
              (Py.strip (text_get st)) st) as (Hv & _ & _).
  destruct (_validate_email_form _ _ st) as [res sv]. simpl in Hv. subst res.
  destruct (form_valid _ _ _); simpl; [|reflexivity].
  destruct (askyesno w); simpl; [|reflexivity].
  destruct (send_email w _ _ _) as [[|] message]; reflexivity.
Qed.

Lemma _send_email_context w st :
  current_context (run (_send_email w) st) = current_context st.
Proof.
  unfold run, _send_email, bind, get_app; cbn [fst snd].
  destruct (_validate_email_form_result (Py.strip (recipient_var st))
              (Py.strip (text_get st)) st) as (Hv & _ & Hd).
  destruct (_validate_email_form _ _ st) as [res sv]. simpl in Hv, Hd. subst res.
  unfold data in Hd. injection Hd as Hd _ _ _ _.
  destruct (form_valid _ _ _); simpl; [|exact Hd].
  destruct (askyesno w); simpl; [|exact Hd].
  destruct (send_email w _ _ _) as [[|] message]; simpl; exact Hd.
Qed.

Lemma send_fails_valid w st reason :
  send_fails w st reason ->
  form_valid (Py.strip (recipient_var st)) (form_body st) (contacts st) = true.
Proof.
  intros (Hv & _ & _).
  destruct (_validate_email_form_result (Py.strip (recipient_var st)) (form_body st) st)
    as (Hr & _ & _).
  rewrite Hr in Hv. congruence.
Qed.

(** The send itself: the question, then the reason in a message box and
    in the log; the draft and the form stay, but for a contact name in
    the recipient entry, which validation replaces by the address. *)
Lemma _send_email_failure w st reason :
  send_fails w st reason ->
  let r := Py.strip (recipient_var st) in
  let st' := run (_send_email w) st in
  (exists question,
      trace st' = trace st ++ [AskYesNo "Confirm" question;
                               ShowError "Error" ("Failed to send email: " +:+ reason);
                               Log ("Failed to send email: " +:+ reason)])
  /\ current_context st' = current_context st
  /\ subject_var st' = subject_var st
  /\ message_text st' = message_text st
  /\ contacts st' = contacts st
  /\ recipient_var st'
     = (if is_valid_email r then recipient_var st else fmt (contacts st !! Py.lower r)).
Proof.
  intros Hf r st'. pose proof (send_fails_valid w st reason Hf) as Hfv.
  destruct Hf as (_ & Hc & Hs).
  destruct (_validate_email_form_result (Py.strip (recipient_var st)) (form_body st) st)
    as (Hr & Hsnd & _).
  specialize (Hsnd Hfv). rewrite Hfv in Hr.
  subst st' r. unfold run, _send_email, bind, get_app; cbn [fst snd].
  fold (form_body st).
  destruct (_validate_email_form _ _ st) as [res sv]. cbn [fst snd] in Hr, Hsnd.
  subst res sv.
  cbn [negb]. unfold _confirm_send_email, bind, emit, modify, ret. cbn [fst snd].
  rewrite Hc, Hs. cbn [negb fst snd].
  destruct st as [c rv sv mt ct tr].
  cbn [recipient_var subject_var message_text contacts trace current_context] in *.
  unfold log, emit, modify.
  destruct (is_valid_email (Py.strip rv));
    cbn [fst snd with_event with_recipient_var recipient_var subject_var message_text
         contacts trace current_context];
    rewrite <- !app_assoc; cbn [List.app];
    (split; [eexists; reflexivity|]); repeat split.
Qed.

Lemma send_fails_entered w a i st reason :
  send_fails w st reason -> send_fails w (entered a i st) reason.
Proof.
  intros Hf. pose proof (send_fails_valid w st reason Hf) as Hfv.
  destruct Hf as (_ & Hc & Hs).
  split; [|split; [exact Hc | exact Hs]].
  destruct (_validate_email_form_result (Py.strip (recipient_var (entered a i st)))
              (form_body (entered a i st)) (entered a i st)) as (Hr & _ & _).
  rewrite Hr. f_equal. exact Hfv.
Qed.

Lemma send_turn_state w command a st :
  understands w command a -> Analysis.intent a = Val "SEND_EMAIL" ->
  voice_turn w command st
  = with_context (fun _ => Ctx.default) (run (_send_email w) (entered a "SEND_EMAIL" st)).
Proof.
  intros Hu Hi. unfold voice_turn, run.
  rewrite (process_voice_command_dict w command a _ st Hu Hi).
  assert (He : _handle_intent w a = _handle_send_intent w).
  { unfold _handle_intent. rewrite Hi. reflexivity. }
  rewrite He. unfold try_except, _handle_send_intent, bind.
  pose proof (_send_email_ok w (entered a "SEND_EMAIL" st)) as Hok.
  destruct (_send_email w (entered a "SEND_EMAIL" st)) as [res st2].
  simpl in Hok. subst res. reflexivity.
Qed.

(** C2 as the code has it: when a send reaches the transport and fails,
    the reason is shown in a message box and logged; subject and body of
    the form are unchanged and the recipient entry is unchanged or holds
    the address of the contact it named; [_send_email] leaves the
    conversation context as it was, and the SEND_EMAIL handler then
    resets it, so that after the turn the context is the default one. *)
Theorem failed_send_keeps_form_and_resets_context w command a st reason :
  understands w command a -> Analysis.intent a = Val "SEND_EMAIL" ->
  send_fails w st reason ->
  let st' := voice_turn w command st in
  (exists question,
      trace st'
      = trace st ++
        [Status "Processing...";
         Log ("AI understood: "
              +:+ fmt (dict_get_default (Analysis.explanation a) "No explanation provided"));
         AskYesNo "Confirm" question;
         ShowError "Error" ("Failed to send email: " +:+ reason);
         Log ("Failed to send email: " +:+ reason)])
  /\ subject_var st' = subject_var st
  /\ message_text st' = message_text st
  /\ (recipient_var st' = recipient_var st
      \/ contacts st !! Py.lower (Py.strip (recipient_var st)) = Some (recipient_var st'))
  /\ current_context (run (_send_email w) st) = current_context st
  /\ current_context st' = Ctx.default.
Proof.
  intros Hu Hi Hf st'. subst st'.
  rewrite (send_turn_state w command a st Hu Hi).
  pose proof (send_fails_valid w st reason Hf) as Hfv.
  destruct (_send_email_failure w _ reason (send_fails_entered w a "SEND_EMAIL" st reason Hf))
    as ([q Ht] & _ & Hs & Hm & _ & Hr).
  split; [|split; [|split; [|split; [|split]]]].
  - exists q. simpl. simpl in Ht. rewrite Ht. rewrite <- !app_assoc. reflexivity.
  - exact Hs.
  - exact Hm.
  - simpl. simpl in Hr. rewrite Hr.
    unfold form_valid in Hfv.
    destruct (is_valid_email (Py.strip (recipient_var st))); [left; reflexivity|].
    right. destruct (contacts st !! Py.lower (Py.strip (recipient_var st))) as [email|];
      [reflexivity|].
    rewrite andb_false_r in Hfv. discriminate.
  - apply _send_email_context.
  - reflexivity.
Qed.

Lemma failed_send_keeps_form_and_resets_context_witness :
  let w := reply_world (JDict send_analysis) true (SmtpException "Connection timed out") in
  let st' := voice_turn w "send it" draft_in_progress in
  subject_var st' = "Hi" /\ message_text st' = "See you at ten"
  /\ current_context st' = Ctx.default
  /\ In (ShowError "Error" "Failed to send email: Sending failed: Connection timed out")
       (trace st').
Proof.
  intros w st'.
  destruct (failed_send_keeps_form_and_resets_context w "send it" send_analysis
              draft_in_progress "Sending failed: Connection timed out")
    as ([q Ht] & Hs & Hm & _ & _ & Hc).
  - apply reply_world_understands.
  - reflexivity.
  - split; [vm_compute; reflexivity|]. split; reflexivity.
  - subst st'. split; [exact Hs|]. split; [exact Hm|]. split; [exact Hc|].
    rewrite Ht. apply in_or_app. right. simpl. auto.
Defined.

(** C2 as stated fails: a SEND_EMAIL turn on a draft in progress whose
    transport times out.  The reason is shown, the form keeps its text,
    but the conversation context after the turn is the default one, not
    the context before the turn. *)
Lemma failed_send_resets_context :
  let w := reply_world (JDict send_analysis) true (SmtpException "Connection timed out") in
  let st' := voice_turn w "send it" draft_in_progress in
  send_fails w draft_in_progress "Sending failed: Connection timed out"
  /\ current_context draft_in_progress
     = {| Ctx.recipient := Some "bob"; Ctx.subject := Some "Hi";
          Ctx.partial_body := Some "See you at ten"; Ctx.in_conversation := true;
          Ctx.last_intent := Some "COMPOSE_EMAIL" |}
  /\ current_context st' = Ctx.default
  /\ current_context st' <> current_context draft_in_progress.
Proof.
  split; [|split; [|split]].
  - split; [vm_compute; reflexivity|]. split; reflexivity.
  - reflexivity.
  - vm_compute. reflexivity.
  - vm_compute. discriminate.
Qed.

(** ** Resetting the conversation *)

Lemma send_turn_resets w command a st :
  understands w command a -> Analysis.intent a = Val "SEND_EMAIL" ->
  current_context (voice_turn w command st) = Ctx.default.
Proof. intros Hu Hi. rewrite (send_turn_state w command a st Hu Hi). reflexivity. Qed.

Lemma clear_turn_resets w command a st :
  understands w command a -> Analysis.intent a = Val "CLEAR_FORM" ->
  current_context (voice_turn w command st) = Ctx.default.
Proof.
  intros Hu Hi. unfold voice_turn, run.
  rewrite (process_voice_command_dict w command a _ st Hu Hi).
  unfold try_except, _handle_intent, bind, lift. rewrite Hi. reflexivity.
Qed.

Lemma fallback_clear_resets w st :
  current_context (run (_handle_command_fallback w "start over") st) = Ctx.default.
Proof. reflexivity. Qed.

(** The draft of the examples is the one a COMPOSE_EMAIL turn leaves. *)
Lemma draft_in_progress_reachable :
  let st := voice_turn
              (reply_world
                 (JDict (compose_analysis (Val "bob") (Val "Hi") (Val "See you at ten")))
                 true SmtpSent)
              "email bob, subject hi, see you at ten"
              (_init_application_state {[ "bob" := "bob@example.com" ]}) in
  reachable {[ "bob" := "bob@example.com" ]} st /\ data st = data draft_in_progress.
Proof.
  intros st. split.
  - subst st. eapply reachable_step; [apply reachable_init | apply step_voice].
  - vm_compute. reflexivity.
Qed.

(** C7, at the input where it fails: a draft in progress, the service out
    of reach, the command "send it now".  The fallback sends the email
    and clears the form, and leaves the conversation context as it was:
    flag set, recipient, subject and body of the email that was sent. *)
Theorem fallback_send_leaves_context :
  let w := offline_world true SmtpSent in
  let st' := voice_turn w "send it now" draft_in_progress in
  trace st'
  = [Status "Processing...";
     AskYesNo "Confirm"
       ("Send email to bob@example.com?" +:+ Py.nl +:+ Py.nl +:+ "Subject: Hi"
        +:+ Py.nl +:+ Py.nl +:+ "Message: See you at ten");
     ShowInfo "Success" "Email sent successfully!";
     Log "Email sent to bob@example.com";
     Speak "Email sent successfully";
     Log "Form cleared"]
  /\ (recipient_var st', subject_var st', message_text st') = ("", "", "")
  /\ current_context st'
     = {| Ctx.recipient := Some "bob"; Ctx.subject := Some "Hi";
          Ctx.partial_body := Some "See you at ten"; Ctx.in_conversation := true;
          Ctx.last_intent := Some "COMPOSE_EMAIL" |}
  /\ current_context st' <> Ctx.default.
Proof.
  vm_compute. split; [reflexivity|]. split; [reflexivity|]. split; [reflexivity|].
  discriminate.
Qed.

(** ** The fallback parser *)

Example fallback_sarah :
  let st' := voice_turn (offline_world true SmtpSent)
               "send an email to sarah about the meeting" (_init_application_state ∅) in
  recipient_var st' = "sarah"
  /\ trace st' = [Status "Processing..."; Log "Manually detected recipient: sarah";
                  Status "I need more details"; Speak "I need more details for your email"].
Proof. vm_compute. split; reflexivity. Qed.

Example fallback_tomorrow :
  recipient_var (voice_turn (offline_world true SmtpSent)
                   "send an email tomorrow to bob" (_init_application_state ∅))
  = "morrow".
Proof. vm_compute. reflexivity. Qed.

(** C4, at an input where it fails: "send an email to tom".  The text is
    cut at every "to", also the one that starts "tom", so the piece after
    the word "to" is a single space and the recipient found is the empty
    string, not "tom". *)
Theorem fallback_recipient_after_to_is_empty :
  let st' := voice_turn (offline_world true SmtpSent) "send an email to tom"
               (_init_application_state ∅) in
  Py.split "to" (Py.lower "send an email to tom") = ["send an email "; " "; "m"]
  /\ recipient_var st' = ""
  /\ recipient_var st' <> "tom"
  /\ trace st' = [Status "Processing..."; Log "Manually detected recipient: ";
                  Status "I need more details"; Speak "I need more details for your email"].
Proof.
  vm_compute. split; [reflexivity|]. split; [reflexivity|]. split; [discriminate|].
  reflexivity.
Qed.

(** ** The invariant of the conversation context *)

Lemma analyze_command_oblivious w command context command' context' :
  analyze_command w command context = analyze_command w command' context'.
Proof. reflexivity. Qed.

Lemma process_voice_command_entered w command a oi st :
  understands w command a -> dict_item "intent" (Analysis.intent a) = Ok oi ->
  process_voice_command w command st
  = try_except (_handle_intent w a) on_error (entered_with a oi st).
Proof.
  intros Hu Hi.
  assert (Hne : Analysis.nonempty a = true).
  { unfold Analysis.nonempty. destruct (Analysis.intent a); [discriminate|reflexivity..]. }
  unfold process_voice_command, bind, try_except, set_status, emit, modify,
    get_app, lift; simpl.
  rewrite (Hu _); simpl. rewrite Hne, Hi; simpl. reflexivity.
Qed.

Lemma _handle_continue_body_intent_flag a st :
  Ctx.in_conversation (current_context (run (_handle_continue_body_intent a) st))
  = Ctx.in_conversation (current_context st).
Proof.
  destruct st as [[cr cs cb cv cl] rv sv mt ct tr].
  unfold run, _handle_continue_body_intent, bind, get_app. cbn [fst snd].
  destruct (bool_decide _ && negb _);
    destruct (Analysis.body a) as [| |b]; reflexivity.
Qed.

Lemma table_get_cases {A} (P : A -> Prop) key (table : list (string * A)) default :
  Forall (fun entry => P (snd entry)) table -> P default ->
  P (table_get key table default).
Proof.
  intros Htable Hdefault. destruct key as [k|]; [|exact Hdefault]. simpl.
  induction Htable as [|[k' v] rest Hv _ IH]; simpl; [exact Hdefault|].
  destruct (bool_decide (k = k')); [exact Hv|exact IH].
Qed.

(** A handler that starts with the flag set ends with the flag set or
    with the default context. *)
Lemma _handle_intent_context w a st :
  Ctx.in_conversation (current_context st) = true ->
  let c' := current_context (run (_handle_intent w a) st) in
  Ctx.in_conversation c' = true \/ c' = Ctx.default.
Proof.
  intros Hflag c'. subst c'.
  unfold run, _handle_intent, bind, lift.
  destruct (dict_item "intent" (Analysis.intent a)) as [oi|e]; cbn [fst snd];
    [|left; exact Hflag].
  apply (table_get_cases
           (fun h : M unit =>
              Ctx.in_conversation (current_context (snd (h st))) = true
              \/ current_context (snd (h st)) = Ctx.default)).
  - unfold intent_handlers.
    repeat match goal with
           | |- Forall _ (_ :: _) => constructor
           | |- Forall _ [] => constructor
           end; cbn [snd].
    + left.
      destruct (_handle_compose_intent_data a st) as [_ Hd].
      apply data_context in Hd. unfold run in Hd. rewrite Hd. exact Hflag.
    + left. rewrite <- Hflag. apply _handle_continue_body_intent_flag.
    + right. unfold _handle_send_intent, bind.
      pose proof (_send_email_ok w st) as Hok.
      destruct (_send_email w st) as [res st2]. simpl in Hok. subst res. reflexivity.
    + right. reflexivity.
    + left. exact Hflag.
    + left. exact Hflag.
    + left. unfold _handle_unknown_intent, bind, get_app. cbn [fst snd].
      rewrite Hflag. exact Hflag.
  - left. unfold _handle_unknown_intent, bind, get_app. cbn [fst snd].
    rewrite Hflag. exact Hflag.
Qed.

Lemma _handle_command_fallback_context w command st :
  fst (_handle_command_fallback w command st) = Ok tt
  /\ (current_context (run (_handle_command_fallback w command) st) = current_context st
      \/ current_context (run (_handle_command_fallback w command) st) = Ctx.default).
Proof.
  unfold run, _handle_command_fallback, bind, get_app. cbn [fst snd].
  destruct (Py.contains "send" (Py.lower command) && Py.contains "email" (Py.lower command)).
  - destruct (Py.split "to" (Py.lower command)) as [|p0 [|p1 rest]];
      split; try reflexivity; left; reflexivity.
  - destruct (Py.contains "send" (Py.lower command) && negb (Py.is_empty (recipient_var st))).
    + split; [apply _send_email_ok|]. left. apply _send_email_context.
    + destruct (Py.contains "clear" (Py.lower command)
                || Py.contains "start over" (Py.lower command));
        split; try reflexivity; [right|left]; reflexivity.
Qed.

Lemma on_error_context e st :
  current_context (snd (on_error e st)) = current_context st.
Proof. reflexivity. Qed.

Lemma voice_turn_context_moves w command st :
  context_moves (current_context st) (current_context (voice_turn w command st)).
Proof.
  destruct (analyze_command_total w command "") as [v Hv].
  destruct (json_truthy v) eqn:Htruthy.
  - destruct v as [|b|z|s|a].
    + discriminate.
    + left. unfold voice_turn, run, process_voice_command, bind, try_except, lift,
        set_status, emit, modify, get_app. cbn [fst snd].
      rewrite (analyze_command_oblivious w command _ command ""), Hv, Htruthy.
      reflexivity.
    + left. unfold voice_turn, run, process_voice_command, bind, try_except, lift,
        set_status, emit, modify, get_app. cbn [fst snd].
      rewrite (analyze_command_oblivious w command _ command ""), Hv, Htruthy.
      reflexivity.
    + left. unfold voice_turn, run, process_voice_command, bind, try_except, lift,
        set_status, emit, modify, get_app. cbn [fst snd].
      rewrite (analyze_command_oblivious w command _ command ""), Hv, Htruthy.
      reflexivity.
    + assert (Hu : understands w command a).
      { intros context. rewrite (analyze_command_oblivious w command _ command ""). exact Hv. }
      right.
      destruct (dict_item "intent" (Analysis.intent a)) as [oi|e] eqn:Hitem.
      * unfold voice_turn, run.
        rewrite (process_voice_command_entered w command a oi st Hu Hitem).
        destruct (_handle_intent_context w a (entered_with a oi st) eq_refl) as [Hc|Hc].
        -- left. unfold try_except. unfold run in Hc.
           destruct (_handle_intent w a (entered_with a oi st)) as [[x|e] st2];
             [exact Hc|]. rewrite on_error_context. exact Hc.
        -- right. unfold try_except. unfold run in Hc.
           destruct (_handle_intent w a (entered_with a oi st)) as [[x|e] st2];
             [exact Hc|]. rewrite on_error_context. exact Hc.
      * left. unfold voice_turn, run, process_voice_command, bind, try_except, lift,
          set_status, emit, modify, get_app. cbn [fst snd].
        rewrite (Hu _), Htruthy. cbn [fst snd]. rewrite Hitem. reflexivity.
  - assert (Hfb : process_voice_command w command st
                  = try_except (_handle_command_fallback w command) on_error
                      (with_event (Status "Processing...") st)).
    { unfold process_voice_command, bind, try_except, set_status, emit, modify,
        get_app, lift; simpl.
      rewrite (analyze_command_oblivious w command _ command ""), Hv. simpl.
      rewrite Htruthy. reflexivity. }
    unfold voice_turn, run. rewrite Hfb.
    destruct (_handle_command_fallback_context w command
                (with_event (Status "Processing...") st)) as [Hok Hc].
    rewrite (try_except_ok _ _ _ _ Hok).
    destruct Hc as [Hc|Hc]; [left | right; right]; exact Hc.
Qed.

Lemma save_contact_context name email st :
  current_context (run (save_contact name email) st) = current_context st.
Proof.
  unfold run, save_contact.
  destruct (Py.is_empty _ || Py.is_empty _); [reflexivity|].
  destruct (negb (is_valid_email _)); reflexivity.
Qed.

Lemma step_context_moves st st' :
  step st st' -> context_moves (current_context st) (current_context st').
Proof.
  intros Hstep. destruct Hstep.
  - apply voice_turn_context_moves.
  - left. apply _send_email_context.
  - left. reflexivity.
  - left. reflexivity.
  - left. apply save_contact_context.
Qed.

Lemma draft_invariant_moves st st' :
  context_moves (current_context st) (current_context st') ->
  draft_invariant st -> draft_invariant st'.
Proof.
  unfold draft_invariant. intros [Hc|[Hc|Hc]] Hinv Hflag.
  - rewrite Hc in *. apply Hinv. exact Hflag.
  - congruence.
  - rewrite Hc. repeat split.
Qed.

(** C8: in every state the application can reach from its initial state,
    by voice turns, the buttons of the form, typing and saving contacts,
    a context whose flag [in_conversation] is false has recipient,
    subject, body and last intent unset. *)
Theorem conversation_inactive_implies_blank known st :
  reachable known st ->
  Ctx.in_conversation (current_context st) = false ->
  Ctx.recipient (current_context st) = None
  /\ Ctx.subject (current_context st) = None
  /\ Ctx.partial_body (current_context st) = None
  /\ Ctx.last_intent (current_context st) = None.
Proof.
  intros Hreach. change (draft_invariant st).
  induction Hreach as [|st st' _ IH Hstep].
  - intros _. repeat split.
  - apply (draft_invariant_moves st st'); [apply step_context_moves; exact Hstep|exact IH].
Qed.

Lemma conversation_inactive_implies_blank_witness :
  let composed_once :=
    voice_turn (reply_world (JDict (compose_analysis (Val "bob") (Val "Lunch") Null))
                  true SmtpSent)
      "email bob about lunch" (_init_application_state ∅) in
  let st := voice_turn (reply_world (JDict clear_analysis) true SmtpSent)
              "start over" composed_once in
  Ctx.in_conversation (current_context composed_once) = true
  /\ Ctx.recipient (current_context composed_once) = Some "bob"
  /\ Ctx.in_conversation (current_context st) = false
  /\ Ctx.recipient (current_context st) = None
  /\ Ctx.subject (current_context st) = None
  /\ Ctx.partial_body (current_context st) = None
  /\ Ctx.last_intent (current_context st) = None.
Proof.
  intros composed_once st.
  split; [vm_compute; reflexivity|]. split; [vm_compute; reflexivity|].
  split; [vm_compute; reflexivity|].
  apply (conversation_inactive_implies_blank ∅ st).
  - subst st composed_once.
    eapply reachable_step; [eapply reachable_step; [apply reachable_init|]|];
      apply step_voice.
  - vm_compute. reflexivity.
Defined.

(** * Further properties of the code *)

(** ** Relations kept by every step of a method *)

Section Respects.
Variable R : app -> app -> Prop.
Hypothesis R_refl : forall st, R st st.
Hypothesis R_trans : forall a b c, R a b -> R b c -> R a c.

Lemma respects_ret {A} (a : A) : respects R (ret a).
Proof. intros st. apply R_refl. Qed.

Lemma respects_raise {A} e : respects R (@raise A e).
Proof. intros st. apply R_refl. Qed.

Lemma respects_lift {A} (r : result A) : respects R (lift r).
Proof. intros st. apply R_refl. Qed.

Lemma respects_get_app : respects R get_app.
Proof. intros st. apply R_refl. Qed.

Lemma respects_modify f : (forall st, R st (f st)) -> respects R (modify f).
Proof. intros H st. apply H. Qed.

Lemma respects_bind {A B} (m : M A) (k : A -> M B) :
  respects R m -> (forall a, respects R (k a)) -> respects R (bind m k).
Proof.
  intros Hm Hk st. unfold bind. specialize (Hm st).
  destruct (m st) as [[a|e] st1]; simpl in *; [|exact Hm].
  apply (R_trans _ st1); [exact Hm|apply Hk].
Qed.

Lemma respects_try_except {A} (m : M A) h :
  respects R m -> (forall e, respects R (h e)) -> respects R (try_except m h).
Proof.
  intros Hm Hh st. unfold try_except. specialize (Hm st).
  destruct (m st) as [[a|e] st1]; simpl in *; [exact Hm|].
  apply (R_trans _ st1); [exact Hm|apply Hh].
Qed.

Lemma respects_table_get {A} key (table : list (string * M A)) default :
  Forall (fun entry => respects R (snd entry)) table -> respects R default ->
  respects R (table_get key table default).
Proof. apply (table_get_cases (fun h => respects R h)). Qed.

(** What is left to show once the five setters and [with_event] are
    known to be in [R]. *)
Hypothesis R_event : forall ev st, R st (with_event ev st).
Hypothesis R_context : forall f st, R st (with_context f st).
Hypothesis R_recipient : forall v st, R st (with_recipient_var v st).
Hypothesis R_subject : forall v st, R st (with_subject_var v st).
Hypothesis R_text : forall v st, R st (with_message_text v st).

Ltac respects_step :=
  match goal with
  | |- respects R (bind _ _) => apply respects_bind; [|intros ?]
  | |- respects R (ret _) => apply respects_ret
  | |- respects R (raise _) => apply respects_raise
  | |- respects R (lift _) => apply respects_lift
  | |- respects R get_app => apply respects_get_app
  | |- respects R (modify _) => apply respects_modify; intros ?; auto
  | |- respects R (if ?b then _ else _) => destruct b
  | |- respects R (match ?x with _ => _ end) => destruct x
  | |- respects R (let (_, _) := ?p in _) => destruct p
  end.

Lemma respects_emit ev : respects R (emit ev).
Proof. unfold emit. repeat respects_step. Qed.

Lemma respects_set_context f : respects R (set_context f).
Proof. unfold set_context. repeat respects_step. Qed.

Lemma respects_text_insert chars : respects R (text_insert chars).
Proof. unfold text_insert. repeat respects_step. Qed.

Lemma respects_guidance : respects R _provide_next_step_guidance.
Proof.
  unfold _provide_next_step_guidance, set_status, speak.
  repeat first [apply respects_emit | respects_step].
Qed.

Lemma respects_clear_form : respects R _clear_form.
Proof.
  unfold _clear_form, text_delete, log.
  repeat first [apply respects_emit | respects_step].
Qed.

Lemma respects_compose a : respects R (_handle_compose_intent a).
Proof.
  unfold _handle_compose_intent, when_set, text_delete, log.
  repeat first [apply respects_emit | apply respects_set_context
               | apply respects_text_insert | apply respects_guidance | respects_step].
Qed.

Lemma respects_continue a : respects R (_handle_continue_body_intent a).
Proof.
  unfold _handle_continue_body_intent, text_delete, log, set_status, speak.
  repeat first [apply respects_emit | apply respects_set_context
               | apply respects_text_insert | respects_step].
Qed.

Lemma respects_validate r b : respects R (_validate_email_form r b).
Proof.
  unfold _validate_email_form.
  repeat first [apply respects_emit | respects_step].
Qed.

Lemma respects_send_email w : respects R (_send_email w).
Proof.
  unfold _send_email, _confirm_send_email, log, speak.
  repeat first [apply respects_emit | apply respects_validate
               | apply respects_clear_form | respects_step].
Qed.

Lemma respects_handlers w :
  respects R _handle_clear_intent /\ respects R (_handle_send_intent w)
  /\ respects R _handle_unknown_intent /\ respects R _show_help
  /\ respects R _show_add_contact_dialog.
Proof.
  unfold _handle_clear_intent, _handle_send_intent, _handle_unknown_intent, _show_help,
    _show_add_contact_dialog, _reset_conversation_context, log, set_status, speak.
  repeat split;
    repeat first [apply respects_emit | apply respects_set_context
                 | apply respects_send_email | apply respects_clear_form | respects_step].
Qed.

Lemma respects_handle_intent w a : respects R (_handle_intent w a).
Proof.
  destruct (respects_handlers w) as (Hc & Hs & Hu & Hh & Ha).
  unfold _handle_intent. apply respects_bind; [apply respects_lift|intros intent].
  apply respects_table_get; [|exact Hu].
  unfold intent_handlers.
  repeat match goal with
         | |- Forall _ (_ :: _) => constructor
         | |- Forall _ [] => constructor
         end; cbn [snd]; auto using respects_compose, respects_continue.
Qed.

Lemma respects_fallback w command : respects R (_handle_command_fallback w command).
Proof.
  destruct (respects_handlers w) as (Hc & Hs & Hu & Hh & Ha).
  unfold _handle_command_fallback, _reset_conversation_context, log, set_status, speak.
  repeat first [apply respects_emit | apply respects_set_context
               | apply respects_send_email | apply respects_clear_form | respects_step].
Qed.

Lemma respects_turn_body w command : respects R (turn_body w command).
Proof.
  unfold turn_body, turn_attempt, on_error, log, set_status.
  apply respects_bind; [apply respects_get_app|intros st].
  apply respects_try_except.
  - repeat first [apply respects_emit | apply respects_set_context
                 | apply respects_handle_intent | apply respects_fallback | respects_step].
  - intros e. repeat first [apply respects_emit | respects_step].
Qed.

Lemma respects_process_voice_command w command :
  respects R (process_voice_command w command).
Proof.
  change (process_voice_command w command)
    with (bind (set_status "Processing...") (fun _ => turn_body w command)).
  apply respects_bind; [apply respects_emit|intros _]. apply respects_turn_body.
Qed.
End Respects.

Lemma process_voice_command_body w command st :
  process_voice_command w command st
  = turn_body w command (with_event (Status "Processing...") st).
Proof. reflexivity. Qed.

Lemma trace_extends_refl st : trace_extends st st.
Proof. exists []. symmetry. apply app_nil_r. Qed.

Lemma trace_extends_trans a b c : trace_extends a b -> trace_extends b c -> trace_extends a c.
Proof.
  intros [e1 H1] [e2 H2]. exists (e1 ++ e2). rewrite H2, H1. symmetry. apply app_assoc.
Qed.

(** ** The analysis step and the turn as a whole *)

(** X1: [analyze_command] never raises.  It returns what [json.loads]
    makes of the stripped content, and [None] when the call to the
    service raises or [json.loads] raises, whatever the exception. *)
Theorem analyze_command_never_raises w command context :
  analyze_command w command context
  = Ok match llm_create w with
       | Raised _ => JNull
       | Ok text =>
           match json_loads w (Py.strip text) with
           | Ok v => v
           | Raised _ => JNull
           end
       end.
Proof.
  unfold analyze_command, try_catch.
  destruct (llm_create w) as [text|e]; [|reflexivity].
  destruct (json_loads w (Py.strip text)) as [v|e]; [reflexivity|].
  destruct e; reflexivity.
Qed.

(** X2: a voice turn never raises, whatever the service, the dialog and
    the transport answer and whatever the analysis holds; when the part
    inside [try] raises, the turn ends with the exception in the log and
    the status line "Error occurred", and keeps what was done before the
    exception. *)
Theorem process_voice_command_never_raises w command st :
  fst (process_voice_command w command st) = Ok tt
  /\ (forall e st1,
        turn_attempt w command (_build_conversation_context (current_context st))
          (with_event (Status "Processing...") st) = (Raised e, st1) ->
        voice_turn w command st
        = with_event (Status "Error occurred") (with_event (LogException e) st1)).
Proof.
  split.
  - rewrite process_voice_command_body. unfold turn_body, bind, get_app, try_except.
    cbn [fst snd].
    match goal with |- context [match ?m with _ => _ end] => destruct m as [[[]|e] st1] end;
      reflexivity.
  - intros e st1 H. unfold voice_turn, run. rewrite process_voice_command_body.
    unfold turn_body, bind, get_app, try_except. cbn [fst snd current_context with_event].
    rewrite H. reflexivity.
Qed.

Lemma process_voice_command_never_raises_witness :
  let w := reply_world (JDict no_intent_analysis) true SmtpSent in
  fst (process_voice_command w "email bob" hello_form) = Ok tt
  /\ trace (voice_turn w "email bob" hello_form)
     = [Status "Processing..."; Log "AI understood: An email for Bob";
        LogException (KeyError "intent"); Status "Error occurred"].
Proof.
  intros w.
  destruct (process_voice_command_never_raises w "email bob" hello_form) as [Hok Herr].
  split; [exact Hok|].
  rewrite (Herr (KeyError "intent")
             (with_context (Ctx.set_in_conversation true)
                (with_event (Log "AI understood: An email for Bob")
                   (with_event (Status "Processing...") hello_form)))); reflexivity.
Defined.

Lemma step_contacts st st' :
  step st st' ->
  contacts st' = contacts st
  \/ exists name email,
       Py.strip name <> "" /\ is_valid_email (Py.strip email) = true
       /\ contacts st' = <[Py.lower (Py.strip name) := Py.strip email]> (contacts st).
Proof.
  intros Hstep. destruct Hstep.
  - left. apply (respects_process_voice_command same_contacts); unfold same_contacts;
      try reflexivity; intros; congruence.
  - left. apply (respects_send_email same_contacts); unfold same_contacts;
      try reflexivity; intros; congruence.
  - left. reflexivity.
  - left. reflexivity.
  - unfold run, save_contact.
    destruct (Py.is_empty (Py.lower (Py.strip name))) eqn:Hname; [left; reflexivity|].
    destruct (Py.is_empty (Py.strip email)); [left; reflexivity|]. cbn [orb].
    destruct (is_valid_email (Py.strip email)) eqn:Hvalid; [|left; reflexivity].
    right. exists name, email. split; [|split; [exact Hvalid|reflexivity]].
    intros Hempty. rewrite Hempty in Hname. discriminate.
Qed.

(** X3: no voice turn, no press of Send or Clear and no typing changes
    the contacts; [save_contact] changes them only by inserting, under
    the name stripped and in lower case, the stripped address, and only
    when the name is not blank and the address has a valid shape. *)
Theorem contacts_change_only_by_save_contact :
  (forall w command st, contacts (voice_turn w command st) = contacts st)
  /\ (forall w st, contacts (run (_send_email w) st) = contacts st)
  /\ (forall st, contacts (run _clear_form st) = contacts st)
  /\ (forall r s b st,
        contacts (with_recipient_var r (with_subject_var s (with_message_text b st)))
        = contacts st)
  /\ (forall name email st,
        contacts (run (save_contact name email) st)
        = if negb (Py.is_empty (Py.strip name)) && is_valid_email (Py.strip email)
          then <[Py.lower (Py.strip name) := Py.strip email]> (contacts st)
          else contacts st).
Proof.
  split; [|split; [|split; [|split]]].
  - intros w command st.
    apply (respects_process_voice_command same_contacts); unfold same_contacts;
      try reflexivity; intros; congruence.
  - intros w st.
    apply (respects_send_email same_contacts); unfold same_contacts;
      try reflexivity; intros; congruence.
  - reflexivity.
  - reflexivity.
  - intros name email st. unfold run, save_contact.
    destruct (Py.strip name) as [|n0 n]; [reflexivity|].
    cbn [Py.lower Py.is_empty orb negb andb].
    destruct (Py.strip email) as [|e0 e] eqn:He.
    + replace (is_valid_email "") with false by (vm_compute; reflexivity). reflexivity.
    + cbn [Py.is_empty]. destruct (is_valid_email (String e0 e)); reflexivity.
Qed.

(** X4: a voice turn only adds to what was shown and said, and the
    first thing it adds is the status line "Processing...". *)
Theorem voice_turn_trace_grows w command st :
  exists events,
    trace (voice_turn w command st) = trace st ++ Status "Processing..." :: events.
Proof.
  unfold voice_turn, run. rewrite process_voice_command_body.
  destruct (respects_turn_body trace_extends trace_extends_refl trace_extends_trans)
    with (w := w) (command := command) (st := with_event (Status "Processing...") st)
    as [events Hev].
  - intros ev s. exists [ev]. reflexivity.
  - intros f s. exists []. symmetry. apply app_nil_r.
  - intros v s. exists []. symmetry. apply app_nil_r.
  - intros v s. exists []. symmetry. apply app_nil_r.
  - intros v s. exists []. symmetry. apply app_nil_r.
  - exists events. rewrite Hev. simpl. rewrite <- app_assoc. reflexivity.
Qed.

(** ** Analyses that are not what the handlers expect *)

(** X5: an analysis that has keys but no "intent" key: the turn logs
    the explanation, sets the flag [in_conversation], then fails on
    [analysis["intent"]]; the KeyError is logged, the status line reads
    "Error occurred", and form, contacts, draft fields and last intent
    are as before. *)
Theorem missing_intent_key_is_reported w command a st :
  understands w command a ->
  Analysis.intent a = Absent -> Analysis.nonempty a = true ->
  voice_turn w command st
  = with_event (Status "Error occurred")
      (with_event (LogException (KeyError "intent"))
         (with_context (Ctx.set_in_conversation true)
            (with_event
               (Log ("AI understood: "
                     +:+ fmt (dict_get_default (Analysis.explanation a)
                                "No explanation provided")))
               (with_event (Status "Processing...") st)))).
Proof.
  intros Hu Hi Hne.
  unfold voice_turn, run, process_voice_command, bind, try_except, set_status, log, emit,
    set_context, modify, get_app, lift. cbn [fst snd].
  rewrite (Hu _). cbn [json_truthy fst snd]. rewrite Hne, Hi. reflexivity.
Qed.

Lemma missing_intent_key_is_reported_witness :
  let st' := voice_turn (reply_world (JDict no_intent_analysis) true SmtpSent)
               "email bob" hello_form in
  Ctx.in_conversation (current_context st') = true
  /\ Ctx.recipient (current_context st') = None
  /\ recipient_var st' = ""
  /\ last (trace st') = Some (Status "Error occurred").
Proof.
  intros st'. subst st'.
  rewrite (missing_intent_key_is_reported
             (reply_world (JDict no_intent_analysis) true SmtpSent) "email bob"
             no_intent_analysis hello_form);
    [repeat split | apply reply_world_understands | reflexivity | reflexivity].
Defined.

(** X6: a decoded value that is false in Python ([None], [False], 0,
    the empty string, the object without keys) is treated like a
    failure of the service: the turn is the one of the fallback parser. *)
Theorem falsy_analysis_goes_to_fallback w command v st :
  (forall context, analyze_command w command context = Ok v) ->
  json_truthy v = false ->
  process_voice_command w command st
  = process_voice_command (without_service w) command st.
Proof.
  intros Hv Hfalse.
  rewrite (process_voice_command_none (without_service w) command st (fun _ => eq_refl)).
  unfold process_voice_command, bind, try_except, set_status, emit, modify,
    get_app, lift; simpl.
  rewrite (Hv _); simpl. rewrite Hfalse. reflexivity.
Qed.

Lemma falsy_analysis_goes_to_fallback_witness :
  voice_turn (reply_world (JDict empty_dict) true SmtpSent) "start over" draft_in_progress
  = voice_turn (offline_world true SmtpSent) "start over" draft_in_progress
  /\ current_context
       (voice_turn (reply_world (JDict empty_dict) true SmtpSent) "start over"
          draft_in_progress) = Ctx.default.
Proof.
  assert (H := falsy_analysis_goes_to_fallback
                 (reply_world (JDict empty_dict) true SmtpSent) "start over"
                 (JDict empty_dict) draft_in_progress
                 (fun _ => eq_refl) eq_refl).
  unfold voice_turn, run. rewrite H. split; reflexivity.
Defined.

Lemma table_find_unlisted w a i :
  i ∉ known_intents -> table_find i (intent_handlers w a) = None.
Proof.
  unfold known_intents, intent_handlers. intros Hnot. simpl.
  repeat (rewrite bool_decide_eq_false_2;
          [|intros ->; apply Hnot; set_solver]).
  reflexivity.
Qed.

(** X7: an intent that is not a key of the handler table ([null], a
    name in other letter case, any other string) is handled as UNKNOWN:
    the turn records it as last intent, gives the message for a draft in
    progress and changes nothing else. *)
Theorem unlisted_intent_is_unknown w command a oi st :
  understands w command a ->
  dict_item "intent" (Analysis.intent a) = Ok oi ->
  (forall i, oi = Some i -> i ∉ known_intents) ->
  voice_turn w command st
  = with_event (Speak "I didn't understand that in the context of your email.")
      (with_event (Status "Please try again")
         (with_event
            (Log "I didn't understand that in the context of your email. Please try again.")
            (entered_with a oi st))).
Proof.
  intros Hu Hitem Hnot. unfold voice_turn, run.
  rewrite (process_voice_command_entered w command a oi st Hu Hitem).
  unfold try_except, _handle_intent, bind, lift. rewrite Hitem. cbn [fst snd].
  assert (Hh : table_get oi (intent_handlers w a) _handle_unknown_intent
               = _handle_unknown_intent).
  { destruct oi as [i|]; [|reflexivity]. unfold table_get.
    rewrite (table_find_unlisted w a i (Hnot i eq_refl)). reflexivity. }
  rewrite Hh. reflexivity.
Qed.

Lemma unlisted_intent_is_unknown_witness :
  let st' := voice_turn (reply_world (JDict lowercase_send_analysis) true SmtpSent)
               "send it" draft_in_progress in
  data st' = data (entered_with lowercase_send_analysis (Some "send_email") draft_in_progress)
  /\ last (trace st')
     = Some (Speak "I didn't understand that in the context of your email.").
Proof.
  intros st'. subst st'.
  rewrite (unlisted_intent_is_unknown
             (reply_world (JDict lowercase_send_analysis) true SmtpSent) "send it"
             lowercase_send_analysis (Some "send_email") draft_in_progress).
  - split; reflexivity.
  - apply reply_world_understands.
  - reflexivity.
  - intros i Hi. injection Hi as <-. unfold known_intents.
    rewrite !not_elem_of_cons. repeat split; try discriminate. apply not_elem_of_nil.
Defined.

(** ** Composing: the recipient and the guidance *)

(** X8: a COMPOSE_EMAIL turn with a recipient keeps the name as it was
    understood in the draft, and writes to the form the address found in
    the contacts under the name in lower case, or the name itself when
    there is none. *)
Theorem compose_resolves_recipient w command a r st :
  understands w command a -> Analysis.intent a = Val "COMPOSE_EMAIL" ->
  populated (Analysis.recipient a) = Some r ->
  let st' := voice_turn w command st in
  Ctx.recipient (current_context st') = Some r
  /\ recipient_var st'
     = match contacts st !! Py.lower r with
       | Some address => address
       | None => r
       end.
Proof.
  intros Hu Hi Hr st'. subst st'.
  pose proof (compose_turn_data w command a st Hu Hi) as Hd.
  unfold data in Hd. injection Hd as Hc Hrv _ _ _.
  rewrite Hc, Hrv. simpl. rewrite Hr. simpl.
  split; [reflexivity|]. destruct (contacts st !! Py.lower r); reflexivity.
Qed.

Lemma compose_resolves_recipient_witness :
  let known : gmap string string := {[ "bob" := "bob@example.com" ]} in
  let turn r :=
    voice_turn (reply_world (JDict (compose_analysis (Val r) Null Null)) true SmtpSent)
      "write an email" (_init_application_state known) in
  recipient_var (turn "Bob") = "bob@example.com"
  /\ Ctx.recipient (current_context (turn "Bob")) = Some "Bob"
  /\ recipient_var (turn "Sarah") = "Sarah".
Proof.
  intros known turn.
  destruct (compose_resolves_recipient
              (reply_world (JDict (compose_analysis (Val "Bob") Null Null)) true SmtpSent)
              "write an email" (compose_analysis (Val "Bob") Null Null) "Bob"
              (_init_application_state known)) as [Hc Hv];
    [apply reply_world_understands | reflexivity | reflexivity |].
  destruct (compose_resolves_recipient
              (reply_world (JDict (compose_analysis (Val "Sarah") Null Null)) true SmtpSent)
              "write an email" (compose_analysis (Val "Sarah") Null Null) "Sarah"
              (_init_application_state known)) as [_ Hv'];
    [apply reply_world_understands | reflexivity | reflexivity |].
  subst turn. cbv beta. rewrite Hc, Hv, Hv'. repeat split.
Defined.

Lemma guidance_run st :
  run _provide_next_step_guidance st
  = match missing_fields st with
    | [] =>
        with_event (Speak "Your email is ready. Say send it when ready.")
          (with_event (Status "Your email is ready to send. Say 'send it' when ready.") st)
    | missing =>
        with_event (Speak ("I need your " +:+ Py.join ", " missing))
          (with_event (Status ("I need your " +:+ Py.join ", " missing)) st)
    end.
Proof.
  unfold run, _provide_next_step_guidance, missing_fields, bind, get_app.
  cbn [fst snd]. fold (form_body st).
  destruct (recipient_var st) as [|r0 r], (subject_var st) as [|s0 s],
    (form_body st) as [|b0 b]; reflexivity.
Qed.

Lemma missing_fields_nil st :
  missing_fields st = []
  <-> recipient_var st <> "" /\ subject_var st <> "" /\ form_body st <> "".
Proof.
  unfold missing_fields.
  destruct (recipient_var st) as [|r0 r], (subject_var st) as [|s0 s],
    (form_body st) as [|b0 b];
    split; try discriminate; try (intros (? & ? & ?); congruence);
    intros _; repeat split; discriminate.
Qed.


(** ** Validation and sending *)

(** X10: validation never raises; it passes exactly when the recipient
    and the body are not empty and the recipient either has the shape of
    an address or is, in lower case, the name of a contact with a
    non-empty address; in the second case the recipient entry then holds
    that address.  Context, subject, body and contacts are not touched. *)
Theorem validation_accepts_address_or_contact r b st :
  (exists ok, fst (_validate_email_form r b st) = Ok ok)
  /\ (fst (_validate_email_form r b st) = Ok true
      <-> r <> "" /\ b <> ""
          /\ (is_valid_email r = true
              \/ exists address, contacts st !! Py.lower r = Some address /\ address <> ""))
  /\ (forall address,
        fst (_validate_email_form r b st) = Ok true -> is_valid_email r = false ->
        contacts st !! Py.lower r = Some address ->
        recipient_var (snd (_validate_email_form r b st)) = address)
  /\ (let st' := snd (_validate_email_form r b st) in
      current_context st' = current_context st /\ subject_var st' = subject_var st
      /\ message_text st' = message_text st /\ contacts st' = contacts st).
Proof.
  destruct (_validate_email_form_result r b st) as (Hres & Hsnd & Hdata).
  split; [eauto|]. split; [|split].
  - rewrite Hres. unfold form_valid. split.
    + intros H. injection H as H.
      destruct r as [|r0 r']; [discriminate|]. destruct b as [|b0 b']; simpl in H.
      { rewrite andb_false_r in H. discriminate. }
      split; [discriminate|]. split; [discriminate|].
      rewrite andb_true_r in H.
      destruct (is_valid_email (String r0 r')); [left; reflexivity|right].
      destruct (contacts st !! Py.lower (String r0 r')) as [[|a0 a]|] eqn:Hl;
        simpl in Hl; rewrite Hl in H; simpl in H; try discriminate.
      eexists. split; [reflexivity|discriminate].
    + intros (Hr & Hb & Hor). f_equal.
      destruct r as [|r0 r']; [congruence|]. destruct b as [|b0 b']; [congruence|].
      cbn [negb Py.is_empty andb]. rewrite andb_true_r.
      destruct Hor as [-> | (address & -> & Hne)]; [reflexivity|].
      destruct address; [congruence|]. apply orb_true_r.
  - intros address Hok Hinvalid Hlookup. rewrite Hres in Hok. injection Hok as Hok.
    rewrite (Hsnd Hok), Hinvalid, Hlookup. reflexivity.
  - unfold data in Hdata. injection Hdata as Hc _ Hs Hm Hk. repeat split; assumption.
Qed.

Lemma validation_accepts_address_or_contact_witness :
  fst (_validate_email_form "Bob" "See you at ten" named_form) = Ok true
  /\ recipient_var (snd (_validate_email_form "Bob" "See you at ten" named_form))
     = "bob@example.com"
  /\ fst (_validate_email_form "Sarah" "See you at ten" named_form) <> Ok true.
Proof.
  destruct (validation_accepts_address_or_contact "Bob" "See you at ten" named_form)
    as (_ & Hiff & Hres & _).
  assert (Hok : fst (_validate_email_form "Bob" "See you at ten" named_form) = Ok true).
  { apply Hiff. split; [discriminate|]. split; [discriminate|]. right.
    exists "bob@example.com". split; [vm_compute; reflexivity|discriminate]. }
  split; [exact Hok|]. split.
  - apply Hres; [exact Hok | vm_compute; reflexivity | vm_compute; reflexivity].
  - destruct (validation_accepts_address_or_contact "Sarah" "See you at ten" named_form)
      as (_ & Hiff' & _).
    intros H. apply Hiff' in H. destruct H as (_ & _ & [H | (address & H & _)]).
    + vm_compute in H. discriminate.
    + vm_compute in H. discriminate.
Defined.

(** [_send_email] once validation has passed. *)
Lemma _send_email_valid w st :
  form_valid (Py.strip (recipient_var st)) (form_body st) (contacts st) = true ->
  let r := Py.strip (recipient_var st) in
  let question := confirm_question r (Py.strip (subject_var st)) (form_body st) in
  let asked := with_event (AskYesNo "Confirm" question) (validated st) in
  run (_send_email w) st
  = if askyesno w then
      match smtp w with
      | SmtpSent =>
          cleared (with_event (Speak "Email sent successfully")
                     (with_event (Log ("Email sent to " +:+ r))
                        (with_event (ShowInfo "Success" "Email sent successfully!") asked)))
      | _ =>
          with_event (Log ("Failed to send email: "
                           +:+ snd (send_email w r (Py.strip (subject_var st)) (form_body st))))
            (with_event (ShowError "Error"
                           ("Failed to send email: "
                            +:+ snd (send_email w r (Py.strip (subject_var st))
                                       (form_body st))))
               asked)
      end
    else asked.
Proof.
  intros Hfv r question asked. subst r question asked.
  destruct (_validate_email_form_result (Py.strip (recipient_var st)) (form_body st) st)
    as (Hr & Hsnd & _).
  specialize (Hsnd Hfv). rewrite Hfv in Hr.
  unfold run, _send_email, bind, get_app; cbn [fst snd].
  fold (form_body st).
  destruct (_validate_email_form _ _ st) as [res sv]. cbn [fst snd] in Hr, Hsnd.
  subst res sv. fold (validated st).
  cbn [negb]. unfold _confirm_send_email, bind, emit, modify, ret. cbn [fst snd].
  fold (confirm_question (Py.strip (recipient_var st)) (Py.strip (subject_var st))
          (form_body st)).
  destruct (askyesno w); cbn [negb fst snd]; [|reflexivity].
  unfold send_email. destruct (smtp w); reflexivity.
Qed.

Lemma validation_passed st :
  fst (_validate_email_form (Py.strip (recipient_var st)) (form_body st) st) = Ok true ->
  form_valid (Py.strip (recipient_var st)) (form_body st) (contacts st) = true.
Proof.
  destruct (_validate_email_form_result (Py.strip (recipient_var st)) (form_body st) st)
    as (Hr & _ & _).
  rewrite Hr. congruence.
Qed.

(** X11: when validation fails, [_send_email] shows one error box and
    stops: no confirmation is asked, nothing is sent, and context,
    subject, body and contacts are as before. *)
Theorem invalid_form_is_not_sent w st :
  fst (_validate_email_form (Py.strip (recipient_var st)) (form_body st) st) = Ok false ->
  let st' := run (_send_email w) st in
  (exists message,
      trace st' = trace st ++ [ShowError "Error" message]
      /\ (message = "Recipient is required"
          \/ message = "Invalid email address: " +:+ Py.strip (recipient_var st)
          \/ message = "Email body cannot be empty"))
  /\ current_context st' = current_context st
  /\ subject_var st' = subject_var st
  /\ message_text st' = message_text st
  /\ contacts st' = contacts st.
Proof.
  intros Hfalse st'. subst st'.
  unfold run, _send_email, bind, get_app. cbn [fst snd]. fold (form_body st).
  revert Hfalse. generalize (form_body st) as b. generalize (Py.strip (recipient_var st)) as r.
  intros r b. unfold _validate_email_form, bind, get_app, emit, modify, ret.
  destruct st as [c rv sv mt ct tr]. simpl.
  destruct (Py.is_empty r); simpl.
  { intros _. split; [eexists; split; [reflexivity|auto]|repeat split]. }
  destruct (is_valid_email r); simpl.
  - destruct (Py.is_empty b); simpl; [|intros H; inversion H].
    intros _. split; [eexists; split; [reflexivity|auto]|repeat split].
  - destruct (truthy (ct !! Py.lower r)); simpl.
    + destruct (Py.is_empty b); simpl; [|intros H; inversion H].
      intros _. split; [eexists; split; [reflexivity|auto]|repeat split].
    + intros _. split; [eexists; split; [reflexivity|auto]|repeat split].
Qed.

Lemma invalid_form_is_not_sent_witness :
  let st' := run (_send_email (reply_world JNull true SmtpSent)) hello_form in
  trace st' = [ShowError "Error" "Recipient is required"]
  /\ message_text st' = "Hello".
Proof.
  intros st'.
  destruct (invalid_form_is_not_sent (reply_world JNull true SmtpSent) hello_form)
    as ([message [Ht _]] & _ & _ & Hm & _); [reflexivity|].
  split; [reflexivity|exact Hm].
Defined.

(** X12: when the form is valid and the user answers no to the
    confirmation, [_send_email] has asked the question and done nothing
    else, but for a contact name in the recipient entry, which
    validation has replaced by the address. *)
Theorem declined_send_keeps_everything w st :
  fst (_validate_email_form (Py.strip (recipient_var st)) (form_body st) st) = Ok true ->
  askyesno w = false ->
  run (_send_email w) st
  = with_event
      (AskYesNo "Confirm"
         (confirm_question (Py.strip (recipient_var st)) (Py.strip (subject_var st))
            (form_body st)))
      (validated st)
  /\ data (validated st)
     = (current_context st,
        (if is_valid_email (Py.strip (recipient_var st)) then recipient_var st
         else fmt (contacts st !! Py.lower (Py.strip (recipient_var st)))),
        subject_var st, message_text st, contacts st).
Proof.
  intros Hvalid Hno.
  rewrite (_send_email_valid w st (validation_passed st Hvalid)), Hno.
  split; [reflexivity|].
  unfold validated. destruct (is_valid_email _); reflexivity.
Qed.

Lemma declined_send_keeps_everything_witness :
  let st' := run (_send_email (reply_world JNull false SmtpSent)) named_form in
  (recipient_var st', subject_var st', message_text st')
  = ("bob@example.com", "Hi", "See you at ten")
  /\ length (trace st') = 1.
Proof.
  intros st'. subst st'.
  destruct (declined_send_keeps_everything (reply_world JNull false SmtpSent) named_form)
    as [-> _]; [vm_compute; reflexivity | reflexivity |].
  vm_compute. split; reflexivity.
Defined.

(** X13: when the form is valid, the user confirms and the transport
    accepts the message, [_send_email] reports the success, logs the
    recipient as it stood in the entry, and empties the three fields of
    the form; it leaves the conversation context and the contacts. *)
Theorem successful_send_clears_form w st :
  fst (_validate_email_form (Py.strip (recipient_var st)) (form_body st) st) = Ok true ->
  askyesno w = true -> smtp w = SmtpSent ->
  let st' := run (_send_email w) st in
  trace st'
  = trace st ++
    [AskYesNo "Confirm"
       (confirm_question (Py.strip (recipient_var st)) (Py.strip (subject_var st))
          (form_body st));
     ShowInfo "Success" "Email sent successfully!";
     Log ("Email sent to " +:+ Py.strip (recipient_var st));
     Speak "Email sent successfully";
     Log "Form cleared"]
  /\ recipient_var st' = "" /\ subject_var st' = "" /\ message_text st' = ""
  /\ current_context st' = current_context st
  /\ contacts st' = contacts st.
Proof.
  intros Hvalid Hyes Hsent st'. subst st'.
  rewrite (_send_email_valid w st (validation_passed st Hvalid)), Hyes, Hsent.
  unfold cleared, validated.
  destruct st as [c rv sv mt ct tr].
  cbn [recipient_var subject_var message_text contacts trace current_context].
  destruct (is_valid_email (Py.strip rv));
    cbn [with_event with_recipient_var with_subject_var with_message_text
         recipient_var subject_var message_text contacts trace current_context];
    rewrite <- !app_assoc; repeat split.
Qed.

Lemma successful_send_clears_form_witness :
  let st' := run (_send_email (reply_world JNull true SmtpSent)) named_form in
  (recipient_var st', subject_var st', message_text st') = ("", "", "")
  /\ In (Log "Email sent to Bob") (trace st').
Proof.
  intros st'.
  destruct (successful_send_clears_form (reply_world JNull true SmtpSent) named_form)
    as (Ht & Hr & Hs & Hm & _); [vm_compute; reflexivity | reflexivity | reflexivity |].
  subst st'. rewrite Hr, Hs, Hm, Ht. split; [reflexivity|].
  simpl. auto.
Defined.

(** X14: after a SEND_EMAIL turn in which the email went out, form and
    conversation context are both empty: the three entries hold no text
    and the context is the default one, so the next turn starts a new
    draft with an empty summary. *)
Theorem sent_turn_starts_afresh w command a st :
  understands w command a -> Analysis.intent a = Val "SEND_EMAIL" ->
  fst (_validate_email_form (Py.strip (recipient_var st)) (form_body st) st) = Ok true ->
  askyesno w = true -> smtp w = SmtpSent ->
  let st' := voice_turn w command st in
  data st' = (Ctx.default, "", "", "", contacts st)
  /\ _build_conversation_context (current_context st') = "".
Proof.
  intros Hu Hi Hvalid Hyes Hsent st'. subst st'.
  rewrite (send_turn_state w command a st Hu Hi).
  assert (Hvalid' : fst (_validate_email_form
                           (Py.strip (recipient_var (entered a "SEND_EMAIL" st)))
                           (form_body (entered a "SEND_EMAIL" st))
                           (entered a "SEND_EMAIL" st)) = Ok true).
  { destruct (_validate_email_form_result
                (Py.strip (recipient_var (entered a "SEND_EMAIL" st)))
                (form_body (entered a "SEND_EMAIL" st)) (entered a "SEND_EMAIL" st))
      as (Hr & _ & _).
    rewrite Hr. f_equal. apply (validation_passed st Hvalid). }
  rewrite (_send_email_valid w _ (validation_passed _ Hvalid')), Hyes, Hsent.
  unfold cleared, validated, data.
  destruct st as [c rv sv mt ct tr].
  cbn [entered entered_with with_context with_event recipient_var].
  destruct (is_valid_email (Py.strip rv)); split; reflexivity.
Qed.

Lemma sent_turn_starts_afresh_witness :
  let st' := voice_turn (reply_world (JDict send_analysis) true SmtpSent) "send it"
               draft_in_progress in
  data st' = (Ctx.default, "", "", "", {[ "bob" := "bob@example.com" ]})
  /\ _build_conversation_context (current_context st') = "".
Proof.
  apply (sent_turn_starts_afresh (reply_world (JDict send_analysis) true SmtpSent)
           "send it" send_analysis draft_in_progress).
  - apply reply_world_understands.
  - reflexivity.
  - vm_compute. reflexivity.
  - reflexivity.
  - reflexivity.
Defined.

(** ** Contacts *)

Lemma lower_is_empty s : Py.is_empty (Py.lower s) = Py.is_empty s.
Proof. destruct s; reflexivity. Qed.

Lemma is_valid_email_nonempty email : is_valid_email email = true -> Py.is_empty email = false.
Proof. destruct email; [vm_compute; discriminate|reflexivity]. Qed.

Lemma save_contact_accepts name email st :
  Py.strip name <> "" -> is_valid_email (Py.strip email) = true ->
  run (save_contact name email) st
  = with_event
      (Log ("Added contact: " +:+ Py.lower (Py.strip name) +:+ " (" +:+ Py.strip email +:+ ")"))
      (with_contacts (<[Py.lower (Py.strip name) := Py.strip email]> (contacts st)) st).
Proof.
  intros Hname Hvalid. unfold run, save_contact.
  rewrite lower_is_empty, (is_valid_email_nonempty _ Hvalid), Hvalid.
  destruct (Py.strip name); [congruence|]. reflexivity.
Qed.

(** X15: a contact saved in the dialog with a name that is not blank
    and an address of valid shape is found again under the name stripped
    and in lower case, with the address stripped; the other contacts,
    the form and the conversation context are as before. *)
Theorem save_contact_then_lookup name email st :
  Py.strip name <> "" -> is_valid_email (Py.strip email) = true ->
  let st' := run (save_contact name email) st in
  contacts st' !! Py.lower (Py.strip name) = Some (Py.strip email)
  /\ (forall other, other <> Py.lower (Py.strip name) ->
        contacts st' !! other = contacts st !! other)
  /\ current_context st' = current_context st
  /\ (recipient_var st', subject_var st', message_text st')
     = (recipient_var st, subject_var st, message_text st).
Proof.
  intros Hname Hvalid st'. subst st'.
  rewrite (save_contact_accepts name email st Hname Hvalid).
  cbn [with_event with_contacts contacts current_context recipient_var subject_var
       message_text].
  split; [apply lookup_insert_eq|]. split; [|split; reflexivity].
  intros other Hother. apply lookup_insert_ne. congruence.
Qed.

Lemma save_contact_then_lookup_witness :
  let st' := run (save_contact "  Sarah " "sarah@example.org ") named_form in
  contacts st' !! "sarah" = Some "sarah@example.org"
  /\ contacts st' !! "bob" = Some "bob@example.com".
Proof.
  intros st'.
  destruct (save_contact_then_lookup "  Sarah " "sarah@example.org " named_form)
    as (Hnew & Hother & _); [discriminate | vm_compute; reflexivity |].
  split; [exact Hnew|].
  subst st'. rewrite (Hother "bob"); [vm_compute; reflexivity | discriminate].
Defined.

(** X16: the dialog refuses a blank name, a blank address and an
    address that has not the shape of one: it shows an error box and
    leaves the contacts, the form and the context untouched. *)
Theorem save_contact_rejects name email st :
  Py.strip name = "" \/ is_valid_email (Py.strip email) = false ->
  exists message,
    run (save_contact name email) st = with_event (ShowError "Error" message) st
    /\ (message = "Name and email are required" \/ message = "Invalid email address").
Proof.
  intros Hbad. unfold run, save_contact. rewrite lower_is_empty.
  destruct (Py.is_empty (Py.strip name)) eqn:Hn; cbn [orb].
  { eexists. split; [reflexivity|auto]. }
  destruct (Py.is_empty (Py.strip email)) eqn:He.
  { eexists. split; [reflexivity|auto]. }
  destruct Hbad as [Hname | Hinvalid].
  - rewrite Hname in Hn. discriminate.
  - rewrite Hinvalid. eexists. split; [reflexivity|auto].
Qed.

Lemma save_contact_rejects_witness :
  contacts (run (save_contact "Sarah" "sarah at example") named_form) = contacts named_form
  /\ last (trace (run (save_contact "Sarah" "sarah at example") named_form))
     = Some (ShowError "Error" "Invalid email address").
Proof.
  destruct (save_contact_rejects "Sarah" "sarah at example" named_form)
    as (message & Heq & _); [right; vm_compute; reflexivity|].
  split; [rewrite Heq; reflexivity | vm_compute; reflexivity].
Defined.

(** X17: a contact saved in the dialog is found by a COMPOSE_EMAIL turn
    that names it in any letter case: the recipient entry gets the saved
    address. *)
Theorem saved_contact_resolves_in_compose name email w command a r st :
  Py.strip name <> "" -> is_valid_email (Py.strip email) = true ->
  understands w command a -> Analysis.intent a = Val "COMPOSE_EMAIL" ->
  populated (Analysis.recipient a) = Some r ->
  Py.lower r = Py.lower (Py.strip name) ->
  recipient_var (voice_turn w command (run (save_contact name email) st)) = Py.strip email.
Proof.
  intros Hname Hvalid Hu Hi Hr Hlower.
  pose proof (compose_turn_data w command a (run (save_contact name email) st) Hu Hi) as Hd.
  unfold data in Hd. injection Hd as _ Hrv _ _ _.
  rewrite Hrv, (save_contact_accepts name email st Hname Hvalid).
  cbn [composed recipient_var entered entered_with with_context with_event with_contacts
       contacts].
  rewrite Hr. cbn [fmap option_fmap option_map keep default].
  rewrite Hlower, lookup_insert_eq. reflexivity.
Qed.

Lemma saved_contact_resolves_in_compose_witness :
  recipient_var
    (voice_turn (reply_world (JDict (compose_analysis (Val "SARAH") Null Null)) true SmtpSent)
       "an email for sarah"
       (run (save_contact " Sarah" "sarah@example.org") (_init_application_state ∅)))
  = "sarah@example.org".
Proof.
  apply (saved_contact_resolves_in_compose " Sarah" "sarah@example.org"
           (reply_world (JDict (compose_analysis (Val "SARAH") Null Null)) true SmtpSent)
           "an email for sarah" (compose_analysis (Val "SARAH") Null Null) "SARAH").
  - discriminate.
  - vm_compute. reflexivity.
  - apply reply_world_understands.
  - reflexivity.
  - reflexivity.
  - reflexivity.
Defined.

(** ** The fallback parser *)

Lemma fallback_turn w command v st :
  (forall context, analyze_command w command context = Ok v) ->
  json_truthy v = false ->
  voice_turn w command st
  = run (_handle_command_fallback w command) (with_event (Status "Processing...") st).
Proof.
  intros Hv Hfalse. unfold voice_turn, run.
  assert (Hfb : process_voice_command w command st
                = try_except (_handle_command_fallback w command) on_error
                    (with_event (Status "Processing...") st)).
  { unfold process_voice_command, bind, try_except, set_status, emit, modify,
      get_app, lift; simpl.
    rewrite (Hv _); simpl. rewrite Hfalse. reflexivity. }
  rewrite Hfb.
  destruct (_handle_command_fallback_context w command
              (with_event (Status "Processing...") st)) as [Hok _].
  rewrite (try_except_ok _ _ _ _ Hok). reflexivity.
Qed.

(** X18: without an analysis, an utterance that contains "clear" or
    "start over" clears the form and resets the conversation context,
    whatever they held, unless it also contains "send" together with
    "email" or with a recipient in the form. *)
Theorem fallback_clear_resets_everything w command v st :
  (forall context, analyze_command w command context = Ok v) ->
  json_truthy v = false ->
  let said word := Py.contains word (Py.lower command) in
  said "send" && said "email" = false ->
  said "send" && negb (Py.is_empty (recipient_var st)) = false ->
  said "clear" || said "start over" = true ->
  let st' := voice_turn w command st in
  data st' = (Ctx.default, "", "", "", contacts st)
  /\ trace st'
     = trace st ++ [Status "Processing..."; Log "Form cleared"; Status "Form cleared";
                    Speak "Form cleared"].
Proof.
  intros Hv Hfalse said H1 H2 H3 st'. subst st' said.
  rewrite (fallback_turn w command v st Hv Hfalse).
  unfold run, _handle_command_fallback, bind, get_app. cbn [fst snd].
  cbn [with_event recipient_var]. rewrite H1, H2, H3.
  destruct st as [c rv sv mt ct tr]. simpl. rewrite <- !app_assoc. split; reflexivity.
Qed.

Lemma fallback_clear_resets_everything_witness :
  let st' := voice_turn (offline_world true SmtpSent) "Let's START OVER" draft_in_progress in
  data st' = (Ctx.default, "", "", "", contacts draft_in_progress)
  /\ trace st' = [Status "Processing..."; Log "Form cleared"; Status "Form cleared";
                  Speak "Form cleared"].
Proof.
  apply (fallback_clear_resets_everything (offline_world true SmtpSent) "Let's START OVER"
           JNull draft_in_progress); reflexivity.
Defined.

(** X19: without an analysis, an utterance that contains "send" and
    "email" never sends, even when the form is complete: at most the
    recipient entry changes, and no confirmation is asked. *)
Theorem fallback_send_email_never_sends w command v st :
  (forall context, analyze_command w command context = Ok v) ->
  json_truthy v = false ->
  Py.contains "send" (Py.lower command) && Py.contains "email" (Py.lower command) = true ->
  let st' := voice_turn w command st in
  current_context st' = current_context st
  /\ subject_var st' = subject_var st
  /\ message_text st' = message_text st
  /\ contacts st' = contacts st
  /\ (trace st' = trace st ++ [Status "Processing..."]
      \/ trace st'
         = trace st ++ [Status "Processing...";
                        Log ("Manually detected recipient: " +:+ recipient_var st');
                        Status "I need more details";
                        Speak "I need more details for your email"]).
Proof.
  intros Hv Hfalse Hse st'. subst st'.
  rewrite (fallback_turn w command v st Hv Hfalse).
  unfold run, _handle_command_fallback, bind, get_app. cbn [fst snd]. rewrite Hse.
  destruct st as [c rv sv mt ct tr].
  destruct (Py.split "to" (Py.lower command)) as [|p0 [|p1 rest]]; simpl;
    repeat split; rewrite <- ?app_assoc; auto.
Qed.

Lemma fallback_send_email_never_sends_witness :
  let st' := voice_turn (offline_world true SmtpSent) "send the email to bob now"
               draft_in_progress in
  message_text st' = "See you at ten" /\ recipient_var st' = "bob"
  /\ length (trace st') = 4.
Proof.
  intros st'.
  destruct (fallback_send_email_never_sends (offline_world true SmtpSent)
              "send the email to bob now" JNull draft_in_progress)
    as (_ & _ & Hm & _ & _); [reflexivity..|].
  split; [exact Hm|]. vm_compute. split; reflexivity.
Defined.

Lemma split_without_separator sep s cur :
  Py.contains sep s = false -> Py.split_from sep 0 cur s = [Py.rev_onto cur s].
Proof.
  revert cur. induction s as [|c s IH]; intros cur Hno.
  - reflexivity.
  - cbn [Py.contains] in Hno. apply orb_false_iff in Hno. destruct Hno as [Hstart Hrest].
    cbn [Py.split_from]. rewrite Hstart. apply (IH (String c cur) Hrest).
Qed.

(** X20: without an analysis, an utterance that contains "send" and
    "email" but no "to" gets no answer at all: the turn sets the status
    line to "Processing..." and does nothing else. *)
Theorem fallback_without_to_is_silent w command v st :
  (forall context, analyze_command w command context = Ok v) ->
  json_truthy v = false ->
  Py.contains "send" (Py.lower command) && Py.contains "email" (Py.lower command) = true ->
  Py.contains "to" (Py.lower command) = false ->
  voice_turn w command st = with_event (Status "Processing...") st.
Proof.
  intros Hv Hfalse Hse Hto.
  rewrite (fallback_turn w command v st Hv Hfalse).
  unfold run, _handle_command_fallback, bind, get_app. cbn [fst snd]. rewrite Hse.
  unfold Py.split. rewrite (split_without_separator "to" _ "" Hto). reflexivity.
Qed.

Lemma fallback_without_to_is_silent_witness :
  voice_turn (offline_world true SmtpSent) "Send an email" draft_in_progress
  = with_event (Status "Processing...") draft_in_progress.
Proof.
  apply (fallback_without_to_is_silent (offline_world true SmtpSent) "Send an email" JNull);
    reflexivity.
Defined.

(** ** What the other intents leave alone *)

Lemma _handle_continue_body_intent_headers a st :
  same_headers st (run (_handle_continue_body_intent a) st)
  /\ contacts (run (_handle_continue_body_intent a) st) = contacts st.
Proof.
  destruct st as [[cr cs cb cv cl] rv sv mt ct tr].
  unfold same_headers, run, _handle_continue_body_intent, bind, get_app. cbn [fst snd].
  destruct (bool_decide _ && negb _);
    destruct (Analysis.body a) as [| |b]; repeat split.
Qed.

(** X21: a CONTINUE_BODY turn touches the body only: recipient and
    subject, in the form and in the draft, and the contacts are as
    before, also when the handler raises. *)
Theorem continue_body_keeps_headers w command a st :
  understands w command a -> Analysis.intent a = Val "CONTINUE_BODY" ->
  let st' := voice_turn w command st in
  recipient_var st' = recipient_var st /\ subject_var st' = subject_var st
  /\ Ctx.recipient (current_context st') = Ctx.recipient (current_context st)
  /\ Ctx.subject (current_context st') = Ctx.subject (current_context st)
  /\ contacts st' = contacts st.
Proof.
  intros Hu Hi st'. subst st'.
  pose proof (turn_data w command a _ st Hu Hi) as Hd.
  assert (He : _handle_intent w a = _handle_continue_body_intent a).
  { unfold _handle_intent. rewrite Hi. reflexivity. }
  rewrite He in Hd. clear He.
  destruct (_handle_continue_body_intent_headers a (entered a "CONTINUE_BODY" st))
    as ((Hr & Hs & Hcr & Hcs) & Hk).
  unfold data in Hd. injection Hd as Hc Hrv Hsv _ Hct.
  rewrite Hrv, Hsv, Hc, Hct, Hr, Hs, Hcr, Hcs, Hk.
  destruct st as [[cr cs cb cv cl] rv sv mt ct tr]. repeat split.
Qed.

Lemma continue_body_keeps_headers_witness :
  let st' := voice_turn (reply_world (JDict (continue_analysis Null (Val true))) true SmtpSent)
               "and" draft_in_progress in
  recipient_var st' = "bob@example.com" /\ subject_var st' = "Hi"
  /\ Ctx.recipient (current_context st') = Some "bob".
Proof.
  intros st'.
  destruct (continue_body_keeps_headers
              (reply_world (JDict (continue_analysis Null (Val true))) true SmtpSent)
              "and" (continue_analysis Null (Val true)) draft_in_progress)
    as (Hr & Hs & Hcr & _); [apply reply_world_understands | reflexivity |].
  subst st'. rewrite Hr, Hs, Hcr. repeat split.
Defined.

(** ** The shape of an address *)

Lemma append_nil_inv s1 s2 : s1 +:+ s2 = "" -> s1 = "" /\ s2 = "".
Proof. destruct s1; [auto|]. rewrite append_cons. discriminate. Qed.

Lemma append_cons_inv c s s1 s2 :
  s1 +:+ s2 = String c s ->
  (s1 = "" /\ s2 = String c s) \/ exists s1', s1 = String c s1' /\ s = s1' +:+ s2.
Proof.
  destruct s1 as [|c1 s1]; [left; auto|]. rewrite append_cons. intros H.
  injection H as -> <-. right. eauto.
Qed.

Lemma append_empty_r s : s +:+ "" = s.
Proof. induction s as [|c s IH]; [reflexivity|]. rewrite append_cons, IH. reflexivity. Qed.

Lemma nullable_spec r : Re.nullable r = true <-> re_matches r "".
Proof.
  split.
  - induction r as [| |p|r1 IH1 r2 IH2|r1 IH1 r2 IH2|r IH]; simpl; intros H;
      try discriminate.
    + constructor.
    + apply andb_true_iff in H. destruct H as [H1 H2].
      apply (m_cat r1 r2 "" ""); auto.
    + apply orb_true_iff in H. destruct H as [H|H];
        [apply m_alt_l | apply m_alt_r]; auto.
    + constructor.
  - intros H. remember "" as s eqn:Hs.
    induction H as [|p c Hp|r1 r2 s1 s2 H1 IH1 H2 IH2|r1 r2 s H IH|r1 r2 s H IH|r
                    |r s1 s2 H1 IH1 H2 IH2]; simpl; try reflexivity; try discriminate.
    + apply append_nil_inv in Hs. destruct Hs as [-> ->].
      rewrite IH1, IH2; reflexivity.
    + rewrite IH; [reflexivity|exact Hs].
    + rewrite IH; [apply orb_true_r|exact Hs].
Qed.

Lemma star_cons_inv r c s :
  re_matches (Re.Star r) (String c s) ->
  exists s1 s2, s = s1 +:+ s2 /\ re_matches r (String c s1) /\ re_matches (Re.Star r) s2.
Proof.
  intros H. remember (Re.Star r) as r' eqn:Hr. remember (String c s) as str eqn:Hs.
  revert s Hs.
  induction H as [|p c' Hp|r1 r2 s1 s2 H1 IH1 H2 IH2|r1 r2 s' H IH|r1 r2 s' H IH|r0
                  |r0 s1 s2 H1 IH1 H2 IH2]; intros s Hs; try discriminate.
  injection Hr as ->.
  apply append_cons_inv in Hs. destruct Hs as [[-> ->] | (s1' & -> & ->)].
  - apply (IH2 eq_refl s eq_refl).
  - exists s1', s2. auto.
Qed.

Lemma deriv_spec r : forall c s, re_matches (Re.deriv c r) s <-> re_matches r (String c s).
Proof.
  induction r as [| |p|r1 IH1 r2 IH2|r1 IH1 r2 IH2|r IH]; intros c s; simpl.
  - split; intros H; inversion H.
  - split; intros H; inversion H.
  - split; intros H.
    + destruct (p c) eqn:Hp; inversion H; subst. constructor. exact Hp.
    + inversion H as [|? ? Hp| | | | |]; subst. rewrite Hp. constructor.
  - split; intros H.
    + destruct (Re.nullable r1) eqn:Hn.
      * inversion H as [| |? ? s1 s2 Ha Hb| ? ? ? Ha | ? ? ? Ha | |]; subst.
        -- inversion Ha as [| |? ? s1 s2 Hc Hd| | | |]; subst.
           apply IH1 in Hc. apply (m_cat r1 r2 (String c s1) s2 Hc Hd).
        -- apply IH2 in Ha. apply nullable_spec in Hn.
           apply (m_cat r1 r2 "" (String c s) Hn Ha).
      * inversion H as [| |? ? s1 s2 Hc Hd| | | |]; subst.
        apply IH1 in Hc. apply (m_cat r1 r2 (String c s1) s2 Hc Hd).
    + inversion H as [| |? ? s1 s2 Ha Hb| | | |]; subst.
      match goal with
      | Heq : _ +:+ _ = String _ _ |- _ =>
          apply append_cons_inv in Heq; destruct Heq as [[-> ->] | (s1' & -> & ->)]
      end.
      * apply nullable_spec in Ha. rewrite Ha. apply m_alt_r. apply IH2. exact Hb.
      * apply IH1 in Ha. destruct (Re.nullable r1).
        -- apply m_alt_l. constructor; assumption.
        -- constructor; assumption.
  - split; intros H.
    + inversion H; subst; [apply m_alt_l; apply IH1 | apply m_alt_r; apply IH2]; assumption.
    + inversion H; subst; [apply m_alt_l; apply IH1 | apply m_alt_r; apply IH2]; assumption.
  - split; intros H.
    + inversion H as [| |? ? s1 s2 Ha Hb| | | |]; subst.
      apply IH in Ha. apply (m_star_cons r (String c s1) s2 Ha Hb).
    + apply star_cons_inv in H. destruct H as (s1 & s2 & -> & Ha & Hb).
      constructor; [apply IH; exact Ha|exact Hb].
Qed.

(** The matcher by derivatives decides the language of the expression. *)
Lemma fullmatch_spec s : forall r, Re.fullmatch r s = true <-> re_matches r s.
Proof.
  induction s as [|c s IH]; intros r; simpl.
  - apply nullable_spec.
  - rewrite IH. apply deriv_spec.
Qed.

Lemma matches_cat r1 r2 s :
  re_matches (Re.Cat r1 r2) s
  <-> exists s1 s2, s = s1 +:+ s2 /\ re_matches r1 s1 /\ re_matches r2 s2.
Proof.
  split.
  - intros H. inversion H as [| |? ? s1 s2 Ha Hb| | | |]; subst. eauto.
  - intros (s1 & s2 & -> & Ha & Hb). constructor; assumption.
Qed.

Lemma matches_cls p s :
  re_matches (Re.Cls p) s <-> exists c, s = String c "" /\ p c = true.
Proof.
  split.
  - intros H. inversion H as [|? c Hp| | | | |]; subst. eauto.
  - intros (c & -> & Hp). constructor. exact Hp.
Qed.

Lemma matches_star_cls p s :
  re_matches (Re.Star (Re.Cls p)) s <-> string_forall p s = true.
Proof.
  split.
  - intros H. remember (Re.Star (Re.Cls p)) as r eqn:Hr.
    induction H as [|p' c Hp|r1 r2 s1 s2 H1 IH1 H2 IH2|r1 r2 s H IH|r1 r2 s H IH|r0
                    |r0 s1 s2 H1 IH1 H2 IH2]; try discriminate.
    + reflexivity.
    + injection Hr as ->. apply matches_cls in H1. destruct H1 as (c & -> & Hp).
      rewrite append_cons. simpl. rewrite Hp. apply (IH2 eq_refl).
  - induction s as [|c s IH]; simpl; intros H.
    + constructor.
    + apply andb_true_iff in H. destruct H as [Hp Hs].
      apply (m_star_cons (Re.Cls p) (String c "") s); [constructor; exact Hp|auto].
Qed.

Lemma matches_plus_cls p s :
  re_matches (Re.plus (Re.Cls p)) s <-> s <> "" /\ string_forall p s = true.
Proof.
  unfold Re.plus. rewrite matches_cat. split.
  - intros (s1 & s2 & -> & H1 & H2). apply matches_cls in H1. destruct H1 as (c & -> & Hp).
    apply matches_star_cls in H2. rewrite append_cons. split; [discriminate|].
    simpl. rewrite Hp. exact H2.
  - intros [Hne H]. destruct s as [|c s]; [congruence|]. simpl in H.
    apply andb_true_iff in H. destruct H as [Hp Hs].
    exists (String c ""), s. split; [reflexivity|]. split.
    + constructor. exact Hp.
    + apply matches_star_cls. exact Hs.
Qed.

Lemma matches_chr a s : re_matches (Re.chr a) s <-> s = String a "".
Proof.
  unfold Re.chr. rewrite matches_cls. split.
  - intros (c & -> & Hc). apply bool_decide_eq_true in Hc. congruence.
  - intros ->. exists a. split; [reflexivity|]. apply bool_decide_eq_true. reflexivity.
Qed.

Lemma matches_email_pattern s : re_matches email_pattern s <-> address_shape s.
Proof.
  unfold email_pattern, address_shape.
  fold local_char domain_char.
  change (fun c => is_alpha c || is_digit c || one_of "._%+-" c) with local_char.
  change (fun c => is_alpha c || is_digit c || one_of ".-" c) with domain_char.
  split.
  - intros H.
    apply matches_cat in H. destruct H as (l & s1 & -> & Hl & H).
    apply matches_cat in H. destruct H as (at_ & s2 & -> & Hat & H).
    apply matches_cat in H. destruct H as (d & s3 & -> & Hd & H).
    apply matches_cat in H. destruct H as (dot & s4 & -> & Hdot & H).
    apply matches_cat in H. destruct H as (a1 & s5 & -> & Ha1 & H).
    apply matches_cat in H. destruct H as (a2 & rest & -> & Ha2 & Hrest).
    apply matches_plus_cls in Hl. apply matches_plus_cls in Hd.
    apply matches_chr in Hat. apply matches_chr in Hdot. subst at_ dot.
    apply matches_cls in Ha1. destruct Ha1 as (x & -> & Hx).
    apply matches_cls in Ha2. destruct Ha2 as (y & -> & Hy).
    apply matches_star_cls in Hrest.
    destruct Hl as [Hl1 Hl2]. destruct Hd as [Hd1 Hd2].
    exists l, d, (String x (String y rest)).
    split; [reflexivity|]. repeat split; try assumption.
    + simpl. lia.
    + simpl. rewrite Hx, Hy. exact Hrest.
  - intros (l & d & tld & -> & Hl1 & Hl2 & Hd1 & Hd2 & Hlen & Htld).
    destruct tld as [|x [|y rest]]; simpl in Hlen; try lia.
    simpl in Htld. apply andb_true_iff in Htld. destruct Htld as [Hx Htld].
    apply andb_true_iff in Htld. destruct Htld as [Hy Hrest].
    apply matches_cat. exists l, ("@" +:+ d +:+ "." +:+ String x (String y rest)).
    split; [reflexivity|]. split; [apply matches_plus_cls; auto|].
    apply matches_cat. exists "@", (d +:+ "." +:+ String x (String y rest)).
    split; [reflexivity|]. split; [apply matches_chr; reflexivity|].
    apply matches_cat. exists d, ("." +:+ String x (String y rest)).
    split; [reflexivity|]. split; [apply matches_plus_cls; auto|].
    apply matches_cat. exists ".", (String x (String y rest)).
    split; [reflexivity|]. split; [apply matches_chr; reflexivity|].
    apply matches_cat. exists (String x ""), (String y rest).
    split; [reflexivity|]. split; [apply matches_cls; eauto|].
    apply matches_cat. exists (String y ""), rest.
    split; [reflexivity|]. split; [apply matches_cls; eauto|].
    apply matches_star_cls. exact Hrest.
Qed.

Lemma chop_newline_spec s : forall s', Re.chop_newline s = Some s' <-> s = s' +:+ Py.nl.
Proof.
  induction s as [|c s IH]; intros s'.
  - simpl. split; [discriminate|]. intros H. symmetry in H.
    apply append_nil_inv in H. destruct H as [_ H]. discriminate.
  - destruct s as [|c2 s2].
    + simpl. destruct (bool_decide (c = ascii_of_nat 10)) eqn:Hc.
      * apply bool_decide_eq_true in Hc. subst c. split.
        -- intros H. injection H as <-. reflexivity.
        -- intros H. destruct s' as [|x s']; [reflexivity|].
           rewrite append_cons in H. injection H as _ H. symmetry in H.
           apply append_nil_inv in H. destruct H as [_ H]. discriminate.
      * apply bool_decide_eq_false in Hc. split; [discriminate|].
        intros H. destruct s' as [|x s'].
        -- injection H as H. contradiction.
        -- rewrite append_cons in H. injection H as _ H. symmetry in H.
           apply append_nil_inv in H. destruct H as [_ H]. discriminate.
    + change (Re.chop_newline (String c (String c2 s2)))
        with (String c <$> Re.chop_newline (String c2 s2)).
      split.
      * intros H. destruct (Re.chop_newline (String c2 s2)) as [t|] eqn:Ht; [|discriminate].
        injection H as <-. pose proof (proj1 (IH t) eq_refl) as Ht'.
        rewrite append_cons, <- Ht'. reflexivity.
      * intros H. destruct s' as [|x s'].
        -- discriminate.
        -- rewrite append_cons in H. injection H as <- H.
           apply IH in H. rewrite H. reflexivity.
Qed.

(** X22: [is_valid_email] accepts exactly the strings of the shape
    local@domain.tld, where local is one or more of letters, digits and
    [._%+-], domain one or more of letters, digits, dot and hyphen, and
    tld two or more letters, and those strings followed by one newline. *)
Theorem valid_email_has_address_shape email :
  is_valid_email email = true
  <-> address_shape email
      \/ exists address, email = address +:+ Py.nl /\ address_shape address.
Proof.
  unfold is_valid_email, Re.match_to_end. rewrite orb_true_iff.
  rewrite fullmatch_spec, matches_email_pattern.
  split; intros [H|H]; [left; exact H | right | left; exact H | right].
  - destruct (Re.chop_newline email) as [address|] eqn:Hchop; [|discriminate].
    exists address. split; [apply chop_newline_spec; exact Hchop|].
    apply matches_email_pattern, fullmatch_spec. exact H.
  - destruct H as (address & Heq & Hshape).
    apply chop_newline_spec in Heq. rewrite Heq.
    apply fullmatch_spec, matches_email_pattern. exact Hshape.
Qed.

(** ** Starting up *)

Lemma truthy_is_set (environ : gmap string string) name :
  truthy (environ !! name) = true <-> is_set environ name.
Proof.
  unfold is_set. destruct (environ !! name) as [[|c v]|]; simpl; split;
    try discriminate; try (intros (value & H & Hne); congruence).
  intros _. eexists. split; [reflexivity|discriminate].
Qed.

(** X23: [load_environment] returns credentials exactly when the three
    variables OPENAI_API_KEY, GMAIL_USER and GMAIL_APP_PASSWORD are set
    and not empty, and then returns their values; in every other case it
    ends the program with exit code 1 after an error box. *)
Theorem load_environment_needs_all_three (environ : gmap string string) :
  ((exists key user pass, load_environment environ = Credentials key user pass)
   <-> is_set environ "OPENAI_API_KEY" /\ is_set environ "GMAIL_USER"
       /\ is_set environ "GMAIL_APP_PASSWORD")
  /\ (forall key user pass,
        load_environment environ = Credentials key user pass ->
        environ !! "OPENAI_API_KEY" = Some key /\ environ !! "GMAIL_USER" = Some user
        /\ environ !! "GMAIL_APP_PASSWORD" = Some pass)
  /\ (forall code title message,
        load_environment environ = SystemExit code title message ->
        code = 1%Z /\ title = "Missing Credentials").
Proof.
  rewrite <- !truthy_is_set. unfold load_environment.
  destruct (environ !! "OPENAI_API_KEY") as [[|k0 k]|];
    destruct (environ !! "GMAIL_USER") as [[|u0 u]|];
    destruct (environ !! "GMAIL_APP_PASSWORD") as [[|p0 p]|]; simpl;
    (split; [split; [intros (? & ? & ? & H); discriminate H || (repeat split)
                    | intros (H1 & H2 & H3); try discriminate; eauto]
            |split; [intros ? ? ? H; try discriminate H; injection H as <- <- <-; auto
                    |intros ? ? ? H; try discriminate H; injection H as <- <- _; auto]]).
Qed.

Example load_environment_names_missing :
  load_environment {[ "GMAIL_USER" := "me@example.com"; "OPENAI_API_KEY" := "" ]}
  = SystemExit 1 "Missing Credentials" "Missing credentials: openai_key, gmail_pass".
Proof. vm_compute. reflexivity. Qed.

Lemma load_environment_needs_all_three_witness :
  let environ : gmap string string :=
    {[ "OPENAI_API_KEY" := "sk-123"; "GMAIL_USER" := "me@example.com";
       "GMAIL_APP_PASSWORD" := "secret" ]} in
  load_environment environ = Credentials "sk-123" "me@example.com" "secret".
Proof.
  intros environ.
  destruct (load_environment_needs_all_three environ) as (Hiff & Hvalues & _).
  destruct (proj2 Hiff) as (key & user & pass & Heq).
  - repeat split; eexists; (split; [vm_compute; reflexivity|discriminate]).
  - rewrite Heq. destruct (Hvalues key user pass Heq) as (Hk & Hu & Hp).
    vm_compute in Hk, Hu, Hp. injection Hk as <-. injection Hu as <-. injection Hp as <-.
    reflexivity.
Defined.

(** ** The confirmation box *)

Lemma length_append (s1 s2 : string) :
  String.length (s1 +:+ s2) = (String.length s1 + String.length s2)%nat.
Proof.
  induction s1 as [|c s1 IH]; [reflexivity|]. rewrite append_cons. simpl. rewrite IH.
  reflexivity.
Qed.

Lemma length_take n s : (String.length (Py.take n s) <= n)%nat.
Proof.
  revert s. induction n as [|n IH]; intros s; [simpl; lia|].
  destruct s as [|c s]; simpl; [lia|]. specialize (IH s). lia.
Qed.

Lemma take_all n s : (String.length s <= n)%nat -> Py.take n s = s.
Proof.
  revert s. induction n as [|n IH]; intros s H.
  - destruct s; [reflexivity|simpl in H; lia].
  - destruct s as [|c s]; [reflexivity|]. simpl in *. rewrite IH; [reflexivity|lia].
Qed.

Lemma take_is_prefix n s : exists rest, s = Py.take n s +:+ rest.
Proof.
  revert s. induction n as [|n IH]; intros s; [exists s; reflexivity|].
  destruct s as [|c s]; [exists ""; reflexivity|].
  destruct (IH s) as [rest Hrest]. exists rest.
  cbn [Py.take]. rewrite append_cons, <- Hrest. reflexivity.
Qed.

Lemma length_take_exact n s :
  (n <= String.length s)%nat -> String.length (Py.take n s) = n.
Proof.
  revert s. induction n as [|n IH]; intros s H; [reflexivity|].
  destruct s as [|c s]; simpl in *; [lia|]. rewrite IH; [reflexivity|lia].
Qed.

(** X24: the confirmation box quotes a body of up to 50 characters
    whole, and of a longer body its first 50 characters followed by
    "..."; so its text is never longer than recipient and subject plus
    90 characters.  Asking changes nothing in the form or the draft, and
    the answer is the user's. *)
Theorem confirmation_quotes_at_most_50 w recipient subject body st :
  exists question,
    _confirm_send_email w recipient subject body st
    = (Ok (askyesno w), with_event (AskYesNo "Confirm" question) st)
    /\ (String.length question
        <= String.length recipient + String.length subject + 90)%nat
    /\ ((String.length body <= 50)%nat ->
        question = "Send email to " +:+ recipient +:+ "?" +:+ Py.nl +:+ Py.nl
                   +:+ "Subject: " +:+ subject +:+ Py.nl +:+ Py.nl +:+ "Message: " +:+ body)
    /\ ((50 < String.length body)%nat ->
        exists first rest,
          body = first +:+ rest /\ String.length first = 50%nat
          /\ question = "Send email to " +:+ recipient +:+ "?" +:+ Py.nl +:+ Py.nl
                        +:+ "Subject: " +:+ subject +:+ Py.nl +:+ Py.nl +:+ "Message: "
                        +:+ first +:+ "...").
Proof.
  eexists. split; [reflexivity|]. split; [|split].
  - rewrite !length_append.
    pose proof (length_take 50 body) as Htake.
    generalize dependent (Py.take 50 body). intros preview Htake.
    destruct (50 <? String.length body)%nat; simpl; lia.
  - intros Hshort. rewrite (take_all 50 body Hshort).
    destruct (50 <? String.length body)%nat eqn:Hlt.
    + apply Nat.ltb_lt in Hlt. lia.
    + rewrite append_empty_r. reflexivity.
  - intros Hlong. destruct (take_is_prefix 50 body) as [rest Hrest].
    exists (Py.take 50 body), rest. split; [exact Hrest|].
    split; [apply length_take_exact; lia|].
    apply Nat.ltb_lt in Hlong. rewrite Hlong. reflexivity.
Qed.

Lemma confirmation_quotes_at_most_50_witness :
  snd (_confirm_send_email (reply_world JNull true SmtpSent) "bob@example.com" "Hi"
         "See you at ten" (_init_application_state ∅))
  = with_event
      (AskYesNo "Confirm"
         ("Send email to bob@example.com?" +:+ Py.nl +:+ Py.nl +:+ "Subject: Hi"
          +:+ Py.nl +:+ Py.nl +:+ "Message: See you at ten"))
      (_init_application_state ∅).
Proof.
  destruct (confirmation_quotes_at_most_50 (reply_world JNull true SmtpSent)
              "bob@example.com" "Hi" "See you at ten" (_init_application_state ∅))
    as (question & Heq & _ & Hshort & _).
  rewrite Heq. cbn [snd]. rewrite Hshort; [reflexivity|simpl; lia].
Defined.

Example confirmation_of_a_long_body :
  trace (snd (_confirm_send_email (reply_world JNull true SmtpSent) "bob@example.com" "Hi"
                "0123456789012345678901234567890123456789012345678901234"
                (_init_application_state ∅)))
  = [AskYesNo "Confirm"
       ("Send email to bob@example.com?" +:+ Py.nl +:+ Py.nl +:+ "Subject: Hi"
        +:+ Py.nl +:+ Py.nl
        +:+ "Message: 01234567890123456789012345678901234567890123456789...")].
Proof. vm_compute. reflexivity. Qed.

(** ** Composing: form and draft *)

(** X25: after a COMPOSE_EMAIL turn, a subject and a body that the
    analysis sets stand in the form word for word, as in the draft: the
    new body replaces the text of the message widget. *)
Theorem compose_writes_subject_and_body w command a st :
  understands w command a -> Analysis.intent a = Val "COMPOSE_EMAIL" ->
  let st' := voice_turn w command st in
  (forall s, populated (Analysis.subject a) = Some s ->
     subject_var st' = s /\ Ctx.subject (current_context st') = Some s)
  /\ (forall b, populated (Analysis.body a) = Some b ->
        message_text st' = b /\ Ctx.partial_body (current_context st') = Some b)
  /\ (populated (Analysis.subject a) = None -> subject_var st' = subject_var st)
  /\ (populated (Analysis.body a) = None -> message_text st' = message_text st).
Proof.
  intros Hu Hi st'. subst st'.
  pose proof (compose_turn_data w command a st Hu Hi) as Hd.
  unfold data in Hd. injection Hd as Hc _ Hs Hm _.
  rewrite Hc, Hs, Hm. simpl.
  split; [|split; [|split]].
  - intros s ->. split; reflexivity.
  - intros b ->. split; reflexivity.
  - intros ->. reflexivity.
  - intros ->. reflexivity.
Qed.

Lemma compose_writes_subject_and_body_witness :
  let st' := voice_turn
               (reply_world (JDict (compose_analysis Null (Val "Lunch") (Val "At noon?")))
                  true SmtpSent)
               "subject lunch, at noon" draft_in_progress in
  subject_var st' = "Lunch" /\ message_text st' = "At noon?"
  /\ recipient_var st' = "bob@example.com".
Proof.
  intros st'.
  destruct (compose_writes_subject_and_body
              (reply_world (JDict (compose_analysis Null (Val "Lunch") (Val "At noon?")))
                 true SmtpSent)
              "subject lunch, at noon" (compose_analysis Null (Val "Lunch") (Val "At noon?"))
              draft_in_progress) as (Hs & Hb & _ & _);
    [apply reply_world_understands | reflexivity |].
  destruct (Hs "Lunch" eq_refl) as [Hs' _]. destruct (Hb "At noon?" eq_refl) as [Hb' _].
  split; [exact Hs'|]. split; [exact Hb'|]. vm_compute. reflexivity.
Defined.

Lemma _handle_compose_intent_ends_with_guidance a st :
  exists st2,
    _handle_compose_intent a st = _provide_next_step_guidance st2
    /\ data st2 = data (composed a st).
Proof.
  destruct a as [i r s b cp ex].
  destruct st as [[cr cs cb cv cl] rv sv mt ct tr].
  unfold _handle_compose_intent, composed, populated.
  destruct r as [| |[|r0 r]], s as [| |[|s0 s]], b as [| |[|b0 b]];
    cbn -[_provide_next_step_guidance];
    eexists; (split; [reflexivity|reflexivity]).
Qed.

Lemma missing_fields_data st st' :
  data st = data st' -> missing_fields st = missing_fields st'.
Proof.
  unfold data, missing_fields, form_body, text_get. intros H.
  injection H as _ -> -> -> _. reflexivity.
Qed.

(** X26: a COMPOSE_EMAIL turn that sets recipient, subject and a body
    with a character that is not white space, and whose recipient does
    not resolve to an empty entry (the name is not a contact, or the
    address of the contact is not empty), ends by telling the user that
    the email is ready to send. *)
Theorem complete_compose_is_ready w command a r s b st :
  understands w command a -> Analysis.intent a = Val "COMPOSE_EMAIL" ->
  populated (Analysis.recipient a) = Some r ->
  populated (Analysis.subject a) = Some s ->
  populated (Analysis.body a) = Some b ->
  default r (contacts st !! Py.lower r) <> "" ->
  Py.strip (b +:+ Py.nl) <> "" ->
  let st' := voice_turn w command st in
  missing_fields st' = []
  /\ exists shown,
       trace st' = shown ++ [Status "Your email is ready to send. Say 'send it' when ready.";
                             Speak "Your email is ready. Say send it when ready."].
Proof.
  intros Hu Hi Hr Hs Hb Hrne Hbne st'. subst st'.
  unfold voice_turn, run.
  rewrite (process_voice_command_dict w command a _ st Hu Hi).
  assert (He : _handle_intent w a = _handle_compose_intent a).
  { unfold _handle_intent. rewrite Hi. reflexivity. }
  rewrite He. clear He.
  destruct (_handle_compose_intent_data a (entered a "COMPOSE_EMAIL" st)) as [Hok _].
  rewrite (try_except_ok _ _ _ _ Hok).
  destruct (_handle_compose_intent_ends_with_guidance a (entered a "COMPOSE_EMAIL" st))
    as (st2 & -> & Hd).
  change (snd (_provide_next_step_guidance st2)) with (run _provide_next_step_guidance st2).
  assert (Hnone : missing_fields st2 = []).
  { apply missing_fields_nil.
    unfold data in Hd. injection Hd as _ Hrv Hsv Hmt _.
    unfold form_body, text_get. rewrite Hrv, Hsv, Hmt.
    cbn [composed recipient_var subject_var message_text entered entered_with with_context
         with_event contacts].
    rewrite Hr, Hs, Hb. cbn [fmap option_fmap option_map keep default].
    split; [exact Hrne|]. split; [|exact Hbne].
    unfold populated in Hs. destruct (Analysis.subject a) as [| |[|s0 s']]; try discriminate.
    injection Hs as <-. discriminate. }
  rewrite guidance_run, Hnone.
  split.
  - rewrite <- Hnone. apply missing_fields_data. destruct st2; reflexivity.
  - exists (trace st2). cbn [with_event trace]. rewrite <- app_assoc. reflexivity.
Qed.

Lemma complete_compose_is_ready_witness :
  let a := compose_analysis (Val "Bob") (Val "Lunch") (Val "At noon?") in
  let st' := voice_turn (reply_world (JDict a) true SmtpSent) "email bob about lunch"
               (_init_application_state {[ "bob" := "bob@example.com" ]}) in
  missing_fields st' = []
  /\ last (trace st') = Some (Speak "Your email is ready. Say send it when ready.").
Proof.
  intros a st'.
  destruct (complete_compose_is_ready (reply_world (JDict a) true SmtpSent)
              "email bob about lunch" a "Bob" "Lunch" "At noon?"
              (_init_application_state {[ "bob" := "bob@example.com" ]}))
    as (Hnone & shown & Ht);
    [apply reply_world_understands | reflexivity | reflexivity | reflexivity | reflexivity
    | vm_compute; discriminate | vm_compute; discriminate |].
  split; [exact Hnone|]. subst st'. rewrite Ht.
  change (shown ++ [Status "Your email is ready to send. Say 'send it' when ready.";
                    Speak "Your email is ready. Say send it when ready."])
    with (shown ++ [Status "Your email is ready to send. Say 'send it' when ready."]
                ++ [Speak "Your email is ready. Say send it when ready."]).
  rewrite app_assoc. apply last_snoc.
Defined.

(** ** The contacts of a session *)

Lemma lower_char_idempotent c : Py.lower_char (Py.lower_char c) = Py.lower_char c.
Proof. destruct c as [[] [] [] [] [] [] [] []]; reflexivity. Qed.

Lemma lower_idempotent s : Py.lower (Py.lower s) = Py.lower s.
Proof.
  induction s as [|c s IH]; [reflexivity|]. simpl. rewrite lower_char_idempotent, IH.
  reflexivity.
Qed.

(** X27: every contact the application holds was either read at start
    or saved in the dialog; one saved in the dialog has a name that is
    not empty and is in lower case, which is how COMPOSE_EMAIL and
    validation look names up, and an address of valid shape. *)
Theorem session_contacts_are_well_formed known st :
  reachable known st ->
  forall name address,
    contacts st !! name = Some address ->
    known !! name = Some address
    \/ (name <> "" /\ Py.lower name = name /\ is_valid_email address = true).
Proof.
  intros Hreach. induction Hreach as [|st st' _ IH Hstep]; intros name address Hlookup.
  - left. exact Hlookup.
  - destruct (step_contacts st st' Hstep) as [Hsame | (n & e & Hn & Hvalid & Hins)].
    + rewrite Hsame in Hlookup. apply IH. exact Hlookup.
    + rewrite Hins in Hlookup.
      destruct (decide (Py.lower (Py.strip n) = name)) as [<-|Hne].
      * rewrite lookup_insert_eq in Hlookup. injection Hlookup as <-.
        right. split; [|split; [apply lower_idempotent|exact Hvalid]].
        intros Hempty. apply Hn.
        destruct (Py.strip n); [reflexivity|discriminate Hempty].
      * rewrite lookup_insert_ne in Hlookup by exact Hne. apply IH. exact Hlookup.
Qed.

Lemma session_contacts_are_well_formed_witness :
  let st := run (save_contact "  Sarah " "sarah@example.org")
              (voice_turn (offline_world true SmtpSent) "start over"
                 (_init_application_state ∅)) in
  contacts st !! "sarah" = Some "sarah@example.org"
  /\ is_valid_email "sarah@example.org" = true.
Proof.
  intros st.
  assert (Hlookup : contacts st !! "sarah" = Some "sarah@example.org")
    by (vm_compute; reflexivity).
  split; [exact Hlookup|].
  destruct (session_contacts_are_well_formed ∅ st) with (name := "sarah")
    (address := "sarah@example.org") as [Hknown | (_ & _ & Hvalid)].
  - subst st. eapply reachable_step; [eapply reachable_step; [apply reachable_init|]|].
    + apply step_voice.
    + apply step_save_contact.
  - exact Hlookup.
  - rewrite lookup_empty in Hknown. discriminate.
  - exact Hvalid.
Defined.

(** With a contact whose stored address is empty the same turn leaves
    the recipient entry empty and asks for the recipient. *)
Example compose_with_blank_contact_address :
  let a := compose_analysis (Val "Bob") (Val "Lunch") (Val "At noon?") in
  let st' := voice_turn (reply_world (JDict a) true SmtpSent) "email bob about lunch"
               (_init_application_state {[ "bob" := "" ]}) in
  recipient_var st' = ""
  /\ last (trace st') = Some (Speak "I need your recipient").
Proof. vm_compute. split; reflexivity. Qed.
